(** * Credential and record store of the desktop application (src/main.py)

  A shallow embedding of class [Database] of [src/main.py]: password
  hashing and verification, registration, login, and the per-user record
  store, together with the properties of the specification that concern
  them.

  Conventions of the embedding.
  - A Python [str] is a [string] (its sequence of bytes); [bytes] is a list
    of [ascii].
  - A Python call either returns or raises: [result].  The exceptions of
    the model are those that the code meets on texts that can be encoded
    and on integers that SQLite can store ([sqlite_integer]); outside of
    these, Python raises [UnicodeEncodeError] or [OverflowError] while it
    encodes or binds the argument, and the model does not speak.
  - The SQLite database seen through the connection is the record [DB];
    what the outside world decides for one call (whether a statement
    raises [sqlite3.Error], the value of [CURRENT_TIMESTAMP], the bytes
    the system random source returns) is the record [Env]. *)

From Stdlib Require Import List String Ascii ZArith NArith Bool Lia.
From Stdlib Require Import Permutation Sorted.
Import ListNotations.
Local Open Scope string_scope.
Local Open Scope Z_scope.

(** ** Python values and exceptions *)

Module Py.

(** The exceptions that the modelled code can meet.  [sqlite3.Error] is the
    base class caught by every [except sqlite3.Error] of the source;
    [IntegrityError] and the others are subclasses of it. *)
Inductive sqlite3_error : Type :=
| OperationalError
| IntegrityError.

Inductive exn : Type :=
| ValueError
| Sqlite3Error (e : sqlite3_error).

Inductive result (A : Type) : Type :=
| Ok (a : A)
| Raise (e : exn).
Arguments Ok {A} a.
Arguments Raise {A} e.

Definition bytes := list ascii.

(** [str.encode()].  The texts of the model are the texts that can be
    encoded; a Python text with a lone surrogate, on which [encode] raises
    [UnicodeEncodeError], is none of them. *)
Definition encode (s : string) : bytes := list_ascii_of_string s.

(** [s.split(sep)] for a one-character separator: the pieces between the
    occurrences of [sep], so one piece more than there are occurrences. *)
Fixpoint split (sep : ascii) (s : string) : list string :=
  match s with
  | EmptyString => [EmptyString]
  | String c r =>
      if Ascii.eqb c sep then EmptyString :: split sep r
      else match split sep r with
           | h :: t => String c h :: t
           | [] => [String c EmptyString]
           end
  end.

(** [a, b = parts]: unpacking into exactly two names. *)
Definition unpack2 (parts : list string) : result (string * string) :=
  match parts with
  | [a; b] => Ok (a, b)
  | _ => Raise ValueError
  end.

(** Number of occurrences of a character: [s.count(c)]. *)
Fixpoint count (c : ascii) (s : string) : nat :=
  match s with
  | EmptyString => O
  | String d r => if Ascii.eqb d c then S (count c r) else count c r
  end.

(** One hexadecimal digit, lower case, as [bytes.hex()] writes it. *)
Definition hex_digit (n : N) : ascii :=
  if (n <? 10)%N then ascii_of_N (48 + n) else ascii_of_N (87 + n).

(** [bytes.hex()] *)
Fixpoint hex (b : bytes) : string :=
  match b with
  | [] => EmptyString
  | a :: r =>
      String (hex_digit (N_of_ascii a / 16))
        (String (hex_digit (N_of_ascii a mod 16)) (hex r))
  end.

(** A character of the hexadecimal alphabet, either case. *)
Definition is_hex_char (c : ascii) : bool :=
  let n := N_of_ascii c in
  ((48 <=? n) && (n <=? 57) || (97 <=? n) && (n <=? 102)
   || (65 <=? n) && (n <=? 70))%N.

Fixpoint is_hex (s : string) : bool :=
  match s with
  | EmptyString => true
  | String c r => is_hex_char c && is_hex r
  end.

End Py.

Import Py.

(** ** Password hashing *)

Section Hashing.

(** [hashlib.pbkdf2_hmac('sha256', password, salt, iterations)] belongs to
    the Python standard library; the code only relies on it being a
    function of its arguments. *)
Variable pbkdf2_hmac_sha256 : bytes -> bytes -> N -> bytes.

(** [secrets.token_hex(16)]: the hexadecimal text of the bytes that the
    system random source returned. *)
Definition token_hex (random_bytes : bytes) : string := hex random_bytes.

(** [Database.hash_password(password, salt=None)].  [random_bytes] is what
    the random source returns if it is asked. *)
Definition hash_password (random_bytes : bytes) (password : string)
    (salt : option string) : string :=
  let salt := match salt with
              | None => token_hex random_bytes
              | Some s => s
              end in
  let hashed := pbkdf2_hmac_sha256 (encode password) (encode salt) 100000%N in
  salt ++ "$" ++ hex hashed.

(** [Database.verify_password(stored_password, provided_password)].  The
    salt is given to [hash_password], so the random source is not asked;
    the argument is there because the callee has it. *)
Definition verify_password (random_bytes : bytes)
    (stored_password provided_password : string) : result bool :=
  match unpack2 (split "$" stored_password) with
  | Raise e => Raise e
  | Ok (salt, hashed) =>
      let new_hash := hash_password random_bytes provided_password (Some salt) in
      Ok (String.eqb new_hash stored_password)
  end.

End Hashing.

(** ** The database

    Three tables, as [Database.create_tables] declares them.  A table is the
    list of its rows in insertion order.  Timestamps are integers, ordered
    as the [YYYY-MM-DD HH:MM:SS] texts of SQLite are. *)

Module Users.
Record row : Type := mk {
  id : Z;                      (* INTEGER PRIMARY KEY AUTOINCREMENT *)
  username : string;           (* TEXT UNIQUE NOT NULL *)
  password : string;           (* TEXT NOT NULL *)
  email : string;              (* TEXT UNIQUE *)
  created_at : Z;              (* TIMESTAMP DEFAULT CURRENT_TIMESTAMP *)
  last_login : option Z;       (* TIMESTAMP, NULL until the first login *)
  is_active : Z                (* INTEGER DEFAULT 1 *)
}.
End Users.

Module UserData.
Record row : Type := mk {
  id : Z;                      (* INTEGER PRIMARY KEY AUTOINCREMENT *)
  user_id : Z;                 (* INTEGER REFERENCES users (id) *)
  title : string;
  data : string;
  category : string;           (* TEXT DEFAULT 'General' *)
  created_at : Z;              (* TIMESTAMP DEFAULT CURRENT_TIMESTAMP *)
  updated_at : Z               (* TIMESTAMP DEFAULT CURRENT_TIMESTAMP *)
}.
End UserData.

Module LoginAttempts.
Record row : Type := mk {
  id : Z;
  username : string;
  ip_address : option string;
  attempt_time : Z;
  success : Z
}.
End LoginAttempts.

Record DB : Type := mkDB {
  users : list Users.row;
  user_data : list UserData.row;
  login_attempts : list LoginAttempts.row
}.

(** What one call of a [Database] method gets from outside: for the n-th
    statement it sends to SQLite ([cursor.execute] or [conn.commit], counted
    from 0) whether SQLite raises, the value of [CURRENT_TIMESTAMP], and the
    bytes of the system random source. *)
Record Env : Type := mkEnv {
  raises : nat -> option sqlite3_error;
  CURRENT_TIMESTAMP : Z;
  random_bytes : bytes
}.

(** *** Computations on the connection: state and exceptions

    The state is kept when an exception is raised, as the connection keeps
    what the statements before it did. *)

Definition M (A : Type) : Type := DB -> DB * result A.

Definition ret {A} (a : A) : M A := fun db => (db, Ok a).

Definition bind {A B} (m : M A) (k : A -> M B) : M B :=
  fun db =>
    match m db with
    | (db', Ok a) => k a db'
    | (db', Raise e) => (db', Raise e)
    end.

Notation "x <- m ;; k" := (bind m (fun x => k))
  (at level 100, m at next level, right associativity).
Notation "m ;;; k" := (bind m (fun _ => k))
  (at level 100, right associativity).

Definition get : M DB := fun db => (db, Ok db).
Definition put (db' : DB) : M unit := fun _ => (db', Ok tt).
Definition raise {A} (e : exn) : M A := fun db => (db, Raise e).
Definition lift {A} (r : result A) : M A := fun db => (db, r).

(** [try: body  except sqlite3.Error as e: handler e].  Any other exception
    goes through. *)
Definition try_except_sqlite3 {A} (body : M A) (handler : sqlite3_error -> M A)
    : M A :=
  fun db =>
    match body db with
    | (db', Raise (Sqlite3Error e)) => handler e db'
    | r => r
    end.

(** The n-th statement reaches SQLite, which may raise. *)
Definition statement (env : Env) (n : nat) : M unit :=
  match raises env n with
  | Some e => raise (Sqlite3Error e)
  | None => ret tt
  end.

(** The integers that SQLite stores and that [cursor.execute] binds as a
    parameter: signed, of 64 bits.  For any other integer the binding raises
    [OverflowError] before SQLite is asked, and no method catches it: the
    methods are modelled on the integers of this range, and what is proved
    of every [user_id] assumes it. *)
Definition sqlite_integer (z : Z) : bool :=
  (- 2 ^ 63 <=? z) && (z <? 2 ^ 63).

(** [AUTOINCREMENT]: one more than the largest row id (rows are never
    deleted by the modelled code). *)
Definition next_id (ids : list Z) : Z := 1 + fold_right Z.max 0 ids.

(** *** The statements of the source *)

(** [SELECT id FROM users WHERE username = ? OR email = ?], [fetchone()] *)
Definition select_user_by_username_or_email (env : Env) (n : nat)
    (username email : string) : M (option Users.row) :=
  statement env n ;;;
  db <- get ;;
  ret (find (fun r => String.eqb (Users.username r) username
                      || String.eqb (Users.email r) email) (users db)).

(** [INSERT INTO users (username, password, email) VALUES (?, ?, ?)].  The
    two [UNIQUE] constraints of the table are checked by SQLite. *)
Definition insert_user (env : Env) (n : nat)
    (username password email : string) : M unit :=
  statement env n ;;;
  db <- get ;;
  if existsb (fun r => String.eqb (Users.username r) username
                       || String.eqb (Users.email r) email) (users db)
  then raise (Sqlite3Error IntegrityError)
  else
    put (mkDB (users db ++ [Users.mk (next_id (map Users.id (users db)))
                              username password email
                              (CURRENT_TIMESTAMP env) None 1])
              (user_data db) (login_attempts db)).

(** [conn.commit()].  When it raises, the connection still sees what the
    statements before it wrote. *)
Definition commit (env : Env) (n : nat) : M unit := statement env n.

(** [SELECT id, username, password, is_active FROM users
     WHERE username = ? AND is_active = 1], [fetchone()] *)
Definition select_active_user (env : Env) (n : nat) (username : string)
    : M (option Users.row) :=
  statement env n ;;;
  db <- get ;;
  ret (find (fun r => String.eqb (Users.username r) username
                      && (Users.is_active r =? 1)) (users db)).

(** [UPDATE users SET last_login = CURRENT_TIMESTAMP WHERE id = ?] *)
Definition update_last_login (env : Env) (n : nat) (id : Z) : M unit :=
  statement env n ;;;
  db <- get ;;
  put (mkDB (map (fun r =>
                    if Users.id r =? id
                    then Users.mk (Users.id r) (Users.username r)
                           (Users.password r) (Users.email r)
                           (Users.created_at r)
                           (Some (CURRENT_TIMESTAMP env)) (Users.is_active r)
                    else r) (users db))
            (user_data db) (login_attempts db)).

(** [INSERT INTO user_data (user_id, title, data, category)
     VALUES (?, ?, ?, ?)].  [PRAGMA foreign_keys = ON] is set by [init_db],
    so SQLite checks that [user_id] is the id of a user. *)
Definition insert_user_data (env : Env) (n : nat) (user_id : Z)
    (title data category : string) : M unit :=
  statement env n ;;;
  db <- get ;;
  if existsb (fun r => Users.id r =? user_id) (users db)
  then
    put (mkDB (users db)
              (user_data db ++
                 [UserData.mk (next_id (map UserData.id (user_data db)))
                    user_id title data category
                    (CURRENT_TIMESTAMP env) (CURRENT_TIMESTAMP env)])
              (login_attempts db))
  else raise (Sqlite3Error IntegrityError).

(** [ORDER BY]: insertion of a row into a list ordered by [le]. *)
Fixpoint insert_by {A} (le : A -> A -> bool) (x : A) (l : list A) : list A :=
  match l with
  | [] => [x]
  | y :: r => if le x y then x :: l else y :: insert_by le x r
  end.

Fixpoint order_by {A} (le : A -> A -> bool) (l : list A) : list A :=
  match l with
  | [] => []
  | x :: r => insert_by le x (order_by le r)
  end.

(** [ORDER BY created_at DESC] *)
Definition created_at_desc (a b : UserData.row) : bool :=
  UserData.created_at b <=? UserData.created_at a.

(** The row of a [SELECT id, title, data, category, created_at]. *)
Definition data_tuple : Type := (Z * string * string * string * Z)%type.

Definition select_columns (r : UserData.row) : data_tuple :=
  (UserData.id r, UserData.title r, UserData.data r, UserData.category r,
   UserData.created_at r).

Definition tuple_category (t : data_tuple) : string :=
  let '(_, _, _, c, _) := t in c.

Definition tuple_created_at (t : data_tuple) : Z :=
  let '(_, _, _, _, ts) := t in ts.

(** [SELECT id, title, data, category, created_at FROM user_data
     WHERE user_id = ? AND category = ? ORDER BY created_at DESC],
    [fetchall()] *)
Definition select_user_data_by_category (env : Env) (n : nat) (user_id : Z)
    (category : string) : M (list data_tuple) :=
  statement env n ;;;
  db <- get ;;
  ret (map select_columns
         (order_by created_at_desc
            (filter (fun r => (UserData.user_id r =? user_id)
                              && String.eqb (UserData.category r) category)
                    (user_data db)))).

(** The same without the condition on the category. *)
Definition select_user_data (env : Env) (n : nat) (user_id : Z)
    : M (list data_tuple) :=
  statement env n ;;;
  db <- get ;;
  ret (map select_columns
         (order_by created_at_desc
            (filter (fun r => UserData.user_id r =? user_id) (user_data db)))).

(** [DISTINCT]: the first occurrence of each value is kept. *)
Fixpoint distinct (l : list string) : list string :=
  match l with
  | [] => []
  | x :: r => x :: filter (fun y => negb (String.eqb y x)) (distinct r)
  end.

(** [SELECT DISTINCT category FROM user_data WHERE user_id = ?
     ORDER BY category], [fetchall()] *)
Definition select_distinct_categories (env : Env) (n : nat) (user_id : Z)
    : M (list string) :=
  statement env n ;;;
  db <- get ;;
  ret (order_by String.leb
         (distinct (map UserData.category
                      (filter (fun r => UserData.user_id r =? user_id)
                              (user_data db))))).

(** ** The methods of class [Database] *)

(** The texts that the methods return to the caller (Russian in the source),
    named by what they say. *)
Inductive message : Type :=
| MsgDuplicateUser          (* a user with this name or email already exists *)
| MsgRegistered             (* registration succeeded *)
| MsgNotFoundOrInactive     (* user not found or blocked *)
| MsgWrongPassword          (* wrong password *)
| MsgDatabaseError (e : sqlite3_error).   (* database error: str(e) *)

(** The second component of what [login_user] returns: the dictionary
    [{'id': ..., 'username': ...}] or a text. *)
Inductive login_value : Type :=
| LoginUser (id : Z) (username : string)
| LoginMessage (m : message).

Section Database.

Variable pbkdf2_hmac_sha256 : bytes -> bytes -> N -> bytes.

(** [Database.register_user(username, password, email)] *)
Definition register_user (env : Env) (username password email : string)
    : M (bool * message) :=
  try_except_sqlite3
    (found <- select_user_by_username_or_email env 0 username email ;;
     match found with
     | Some _ => ret (false, MsgDuplicateUser)
     | None =>
         let hashed_password :=
           hash_password pbkdf2_hmac_sha256 (random_bytes env) password None in
         insert_user env 1 username hashed_password email ;;;
         commit env 2 ;;;
         ret (true, MsgRegistered)
     end)
    (fun e => ret (false, MsgDatabaseError e)).

(** [Database.login_user(username, password)] *)
Definition login_user (env : Env) (username password : string)
    : M (bool * login_value) :=
  try_except_sqlite3
    (user <- select_active_user env 0 username ;;
     match user with
     | None => ret (false, LoginMessage MsgNotFoundOrInactive)
     | Some user =>
         ok <- lift (verify_password pbkdf2_hmac_sha256 (random_bytes env)
                       (Users.password user) password) ;;
         if ok then
           update_last_login env 1 (Users.id user) ;;;
           commit env 2 ;;;
           ret (true, LoginUser (Users.id user) (Users.username user))
         else ret (false, LoginMessage MsgWrongPassword)
     end)
    (fun e => ret (false, LoginMessage (MsgDatabaseError e))).

End Database.

(** [Database.save_user_data(user_id, title, data, category="General")];
    [None] stands for a call that leaves the category out.  [user_id] is an
    integer of SQLite, see [sqlite_integer]. *)
Definition save_user_data (env : Env) (user_id : Z) (title data : string)
    (category : option string) : M bool :=
  let category := match category with
                  | None => "General"
                  | Some c => c
                  end in
  try_except_sqlite3
    (insert_user_data env 0 user_id title data category ;;;
     commit env 1 ;;;
     ret true)
    (fun _ => ret false).

(** [Database.get_user_data(user_id, category=None)].  The test
    [if category:] is false for [None] and for the empty text.  [user_id]
    is an integer of SQLite, see [sqlite_integer]. *)
Definition get_user_data (env : Env) (user_id : Z) (category : option string)
    : M (list data_tuple) :=
  try_except_sqlite3
    (match category with
     | Some (String _ _ as c) => select_user_data_by_category env 0 user_id c
     | Some EmptyString | None => select_user_data env 0 user_id
     end)
    (fun _ => ret []).

(** [Database.get_categories(user_id)]; [user_id] is an integer of SQLite,
    see [sqlite_integer]. *)
Definition get_categories (env : Env) (user_id : Z) : M (list string) :=
  try_except_sqlite3
    (rows <- select_distinct_categories env 0 user_id ;;
     ret rows)
    (fun _ => ret []).

(** ** Values used in examples *)

(** The connection right after [create_tables] on a new file. *)
Definition empty_db : DB := mkDB [] [] [].

(** SQLite answers every statement. *)
Definition store_up (now : Z) (rnd : bytes) : Env :=
  mkEnv (fun _ => None) now rnd.

(** SQLite raises on every statement (for example after [close()]). *)
Definition store_down (now : Z) : Env :=
  mkEnv (fun _ => Some OperationalError) now [].

(** A stand-in for the key derivation in examples: any function will do. *)
Definition example_kdf (password salt : bytes) (iterations : N) : bytes :=
  (password ++ salt)%list.

(** A database with the single user alice, registered without email. *)
Definition db_alice : DB :=
  mkDB [Users.mk 1 "alice" "0a$00" "" 100 None 1] [] [].

(** The same with one record of alice in category Work. *)
Definition db_alice_work : DB :=
  mkDB [Users.mk 1 "alice" "0a$00" "" 100 None 1]
       [UserData.mk 1 1 "T" "B" "Work" 200 200] [].

(** The rows of [user_data] that a listing for [user_id] is about: those of
    that owner, and of that category when a category that is not the empty
    text is asked for. *)
Definition listed (user_id : Z) (category : option string)
    (r : UserData.row) : bool :=
  (UserData.user_id r =? user_id)
  && match category with
     | Some (String _ _ as c) => String.eqb (UserData.category r) c
     | Some EmptyString | None => true
     end.

(** Newest first. *)
Definition newest_first (a b : data_tuple) : Prop :=
  tuple_created_at b <= tuple_created_at a.

(** The state of the database after the call. *)
Definition state_after {A} (m : M A) (db : DB) : DB := fst (m db).

(** What the call returned or raised. *)
Definition outcome {A} (m : M A) (db : DB) : result A := snd (m db).

(** The [UNIQUE] constraint on [users.username]. *)
Definition username_unique (db : DB) : Prop :=
  NoDup (map Users.username (users db)).

(** Number of rows of [users] with a given username. *)
Definition count_username (u : string) (db : DB) : nat :=
  List.length
    (filter (fun r => String.eqb (Users.username r) u) (users db)).

(** ** States that the methods reach *)

(** The row that a successful [register_user] adds. *)
Definition registered_row (kdf : bytes -> bytes -> N -> bytes) (env : Env)
    (db : DB) (username password email : string) : Users.row :=
  Users.mk (next_id (map Users.id (users db))) username
    (hash_password kdf (random_bytes env) password None) email
    (CURRENT_TIMESTAMP env) None 1.

(** A row of [users] after a login at time [now]. *)
Definition logged_in_at (now : Z) (r : Users.row) : Users.row :=
  Users.mk (Users.id r) (Users.username r) (Users.password r)
    (Users.email r) (Users.created_at r) (Some now) (Users.is_active r).

(** The row that a successful [save_user_data] adds. *)
Definition saved_row (env : Env) (db : DB) (user_id : Z)
    (title data category : string) : UserData.row :=
  UserData.mk (next_id (map UserData.id (user_data db))) user_id title data
    category (CURRENT_TIMESTAMP env) (CURRENT_TIMESTAMP env).

Section Reachable.

Variable pbkdf2_hmac_sha256 : bytes -> bytes -> N -> bytes.

(** One call of a method of [Database], whatever its arguments, whatever
    SQLite does and whatever the call returns. *)
Inductive call : DB -> DB -> Prop :=
| call_register_user env username password email db :
    call db (state_after
               (register_user pbkdf2_hmac_sha256 env username password email)
               db)
| call_login_user env username password db :
    call db (state_after
               (login_user pbkdf2_hmac_sha256 env username password) db)
| call_save_user_data env user_id title data category db :
    call db (state_after (save_user_data env user_id title data category) db)
| call_get_user_data env user_id category db :
    call db (state_after (get_user_data env user_id category) db)
| call_get_categories env user_id db :
    call db (state_after (get_categories env user_id) db).

(** The states that sequences of calls reach from the database that
    [create_tables] leaves on a new file. *)
Inductive reachable : DB -> Prop :=
| reachable_new : reachable empty_db
| reachable_call db db' : reachable db -> call db db' -> reachable db'.

End Reachable.

(** What the schema and the methods together keep true of the database. *)
Record consistent (db : DB) : Prop := mk_consistent {
  usernames_distinct : NoDup (map Users.username (users db));
  emails_distinct : NoDup (map Users.email (users db));
  user_ids_distinct : NoDup (map Users.id (users db));
  data_ids_distinct : NoDup (map UserData.id (user_data db));
  owners_exist :
    forall r, In r (user_data db) ->
              In (UserData.user_id r) (map Users.id (users db));
  passwords_well_formed :
    forall u, In u (users db) -> count "$" (Users.password u) = 1%nat;
  users_active : forall u, In u (users db) -> Users.is_active u = 1
}.

(** ** Text, as the validators look at it *)

(** A text is kept as its UTF-8 bytes.  [len(s)] counts characters: the
    bytes that do not continue a character. *)
Definition is_continuation_byte (c : ascii) : bool :=
  (N.land (N_of_ascii c) 192 =? 128)%N.

Fixpoint len (s : string) : nat :=
  match s with
  | EmptyString => O
  | String c r => if is_continuation_byte c then len r else S (len r)
  end.

(** The characters of a text, as code points: the decoding of its UTF-8
    bytes.  A text of Python is always well formed; on other bytes the
    decoding stops. *)
Definition continuation_bits (c : ascii) : N := N.land (N_of_ascii c) 63.

Fixpoint chars (s : string) : list N :=
  match s with
  | EmptyString => []
  | String c r =>
      let b := N_of_ascii c in
      if (b <? 128)%N then b :: chars r
      else if (b <? 224)%N then
        match r with
        | String c1 r1 =>
            ((b - 192) * 64 + continuation_bits c1)%N :: chars r1
        | EmptyString => []
        end
      else if (b <? 240)%N then
        match r with
        | String c1 (String c2 r2) =>
            (((b - 224) * 64 + continuation_bits c1) * 64
             + continuation_bits c2)%N :: chars r2
        | _ => []
        end
      else
        match r with
        | String c1 (String c2 (String c3 r3)) =>
            ((((b - 240) * 64 + continuation_bits c1) * 64
              + continuation_bits c2) * 64 + continuation_bits c3)%N
            :: chars r3
        | _ => []
        end
  end.

(** All characters of the ASCII range. *)
Definition is_ascii_char (c : ascii) : bool := (N_of_ascii c <? 128)%N.

Fixpoint all_chars (f : ascii -> bool) (s : string) : bool :=
  match s with
  | EmptyString => true
  | String c r => f c && all_chars f r
  end.

Fixpoint any_char (f : ascii -> bool) (s : string) : bool :=
  match s with
  | EmptyString => false
  | String c r => f c || any_char f r
  end.

Definition is_ascii (s : string) : bool := all_chars is_ascii_char s.

(** A character between two others, as a range of a character class. *)
Definition in_range (lo hi c : ascii) : bool :=
  ((N_of_ascii lo <=? N_of_ascii c) && (N_of_ascii c <=? N_of_ascii hi))%N.

(** ** Regular expressions

    The patterns of [Validator] use character classes, sequence and
    repetition.  A pattern is matched by derivatives, which finds a match
    exactly when the backtracking search of [re] does. *)

Module Re.

Inductive regex : Type :=
| Never
| Eps
| Class (f : ascii -> bool)
| Cat (r1 r2 : regex)
| Alt (r1 r2 : regex)
| Star (r : regex).

(** [r+] and [r{2,}] *)
Definition Plus (r : regex) : regex := Cat r (Star r).
Definition AtLeast2 (r : regex) : regex := Cat r (Cat r (Star r)).

(** One given character. *)
Definition Chr (c : ascii) : regex := Class (Ascii.eqb c).

Fixpoint nullable (r : regex) : bool :=
  match r with
  | Never => false
  | Eps => true
  | Class _ => false
  | Cat r1 r2 => nullable r1 && nullable r2
  | Alt r1 r2 => nullable r1 || nullable r2
  | Star _ => true
  end.

Fixpoint deriv (c : ascii) (r : regex) : regex :=
  match r with
  | Never => Never
  | Eps => Never
  | Class f => if f c then Eps else Never
  | Cat r1 r2 =>
      if nullable r1
      then Alt (Cat (deriv c r1) r2) (deriv c r2)
      else Cat (deriv c r1) r2
  | Alt r1 r2 => Alt (deriv c r1) (deriv c r2)
  | Star r1 => Cat (deriv c r1) (Star r1)
  end.

(** The whole text is in the language of the pattern. *)
Fixpoint matches (r : regex) (s : string) : bool :=
  match s with
  | EmptyString => nullable r
  | String c rest => matches (deriv c r) rest
  end.

(** The text without its last character, when that is a newline. *)
Fixpoint without_final_newline (s : string) : option string :=
  match s with
  | EmptyString => None
  | String c EmptyString =>
      if Ascii.eqb c "010" then Some EmptyString else None
  | String c rest =>
      match without_final_newline rest with
      | Some w => Some (String c w)
      | None => None
      end
  end.

(** [re.match('^' + r + '$', s)] is not [None]: [^] is the start of the
    text, and [$] is its end or the place before a newline that ends it. *)
Definition match_anchored (r : regex) (s : string) : bool :=
  matches r s
  || match without_final_newline s with
     | Some w => matches r w
     | None => false
     end.

(** The texts of a pattern. *)
Inductive lang : regex -> string -> Prop :=
| lang_eps : lang Eps EmptyString
| lang_class f c : f c = true -> lang (Class f) (String c EmptyString)
| lang_cat r1 r2 s1 s2 :
    lang r1 s1 -> lang r2 s2 -> lang (Cat r1 r2) (s1 ++ s2)
| lang_alt_l r1 r2 s : lang r1 s -> lang (Alt r1 r2) s
| lang_alt_r r1 r2 s : lang r2 s -> lang (Alt r1 r2) s
| lang_star_nil r : lang (Star r) EmptyString
| lang_star_more r s1 s2 :
    lang r s1 -> lang (Star r) s2 -> lang (Star r) (s1 ++ s2).

End Re.

(** ** Class [Validator] *)

Module Validator.

Import Re.

(** The texts that the validators return (Russian in the source). *)
Inductive text : Type :=
| NoText                    (* the empty text of a success *)
| UsernameTooShort          (* at least 3 characters *)
| UsernameBadCharacters     (* only letters, digits and _ *)
| PasswordTooShort          (* at least 6 characters *)
| PasswordWithoutDigit      (* at least one digit *)
| PasswordWithoutUppercase  (* at least one capital letter *)
| EmailIncorrect.           (* incorrect email address *)

(** [[a-zA-Z0-9_]] *)
Definition word_char (c : ascii) : bool :=
  in_range "a" "z" c || in_range "A" "Z" c || in_range "0" "9" c
  || Ascii.eqb c "_".

(** [^[a-zA-Z0-9_]+$] *)
Definition username_pattern : regex := Plus (Class word_char).

(** [Validator.validate_username(username)] *)
Definition validate_username (username : string) : bool * text :=
  if (len username <? 3)%nat then (false, UsernameTooShort)
  else if negb (match_anchored username_pattern username)
       then (false, UsernameBadCharacters)
       else (true, NoText).

(** The digits and the capital letters of the ASCII range. *)
Definition ascii_isdigit (c : ascii) : bool := in_range "0" "9" c.
Definition ascii_isupper (c : ascii) : bool := in_range "A" "Z" c.

Section UnicodeTables.

(** [char.isdigit()] and [char.isupper()] for a character outside the
    ASCII range are decided by the Unicode tables of Python. *)
Variables unicode_isdigit unicode_isupper : N -> bool.

(** [char.isdigit()] and [char.isupper()] *)
Definition isdigit (c : N) : bool :=
  if (c <? 128)%N then (48 <=? c)%N && (c <=? 57)%N else unicode_isdigit c.

Definition isupper (c : N) : bool :=
  if (c <? 128)%N then (65 <=? c)%N && (c <=? 90)%N else unicode_isupper c.

(** [Validator.validate_password(password)] *)
Definition validate_password (password : string) : bool * text :=
  if (len password <? 6)%nat then (false, PasswordTooShort)
  else if negb (existsb isdigit (chars password))
       then (false, PasswordWithoutDigit)
       else if negb (existsb isupper (chars password))
            then (false, PasswordWithoutUppercase)
            else (true, NoText).

End UnicodeTables.

(** [[a-zA-Z0-9._%+-]], [[a-zA-Z0-9.-]] and [[a-zA-Z]] *)
Definition email_local_char (c : ascii) : bool :=
  in_range "a" "z" c || in_range "A" "Z" c || in_range "0" "9" c
  || Ascii.eqb c "." || Ascii.eqb c "_" || Ascii.eqb c "%"
  || Ascii.eqb c "+" || Ascii.eqb c "-".

Definition email_domain_char (c : ascii) : bool :=
  in_range "a" "z" c || in_range "A" "Z" c || in_range "0" "9" c
  || Ascii.eqb c "." || Ascii.eqb c "-".

Definition letter (c : ascii) : bool :=
  in_range "a" "z" c || in_range "A" "Z" c.

(** [^[a-zA-Z0-9._%+-]+@[a-zA-Z0-9.-]+\.[a-zA-Z]{2,}$] *)
Definition email_pattern : regex :=
  Cat (Plus (Class email_local_char))
    (Cat (Chr "@")
       (Cat (Plus (Class email_domain_char))
          (Cat (Chr ".") (AtLeast2 (Class letter))))).

(** [Validator.validate_email(email)] *)
Definition validate_email (email : string) : bool * text :=
  if negb (match_anchored email_pattern email)
  then (false, EmailIncorrect)
  else (true, NoText).

(** [string.ascii_letters + string.digits + string.punctuation] *)
Definition characters : string :=
  "abcdefghijklmnopqrstuvwxyzABCDEFGHIJKLMNOPQRSTUVWXYZ"
  ++ "0123456789"
  ++ "!" ++ String "034" "#$%&'()*+,-./:;<=>?@[\]^_`{|}~".

(** [secrets.choice(characters)], given what [secrets.randbelow] returned
    for the length of [characters]. *)
Definition choice (below : nat) : ascii :=
  nth below (list_ascii_of_string characters) "000"%char.

(** [Validator.generate_strong_password(length=12)].  [randbelow i] is what
    the random source returns for the i-th character; [None] stands for a
    call that leaves the length out. *)
Definition generate_strong_password (randbelow : nat -> nat)
    (length : option Z) : string :=
  let length := match length with
                | None => 12
                | Some n => n
                end in
  string_of_list_ascii
    (map (fun i => choice (randbelow i)) (seq 0 (Z.to_nat length))).

(** The addresses of the pattern of [validate_email]. *)
Definition well_formed_address (s : string) : Prop :=
  exists l d t,
    s = l ++ "@" ++ d ++ "." ++ t
    /\ l <> EmptyString /\ all_chars email_local_char l = true
    /\ d <> EmptyString /\ all_chars email_domain_char d = true
    /\ (2 <= String.length t)%nat /\ all_chars letter t = true.

(** Membership in [characters]. *)
Definition is_character (c : ascii) : bool :=
  existsb (Ascii.eqb c) (list_ascii_of_string characters).

End Validator.

(** ** The handlers of class [ModernApp]

    The handlers behind the buttons of the login, registration and record
    forms.  What a handler reads from the entry fields is given as
    arguments.  What it shows (a message box, the next screen) is what the
    model returns; the screens that a handler opens afterwards only read the
    database. *)

Module ModernApp.

(** [self.db] and [self.current_user]; the latter holds whatever
    [login_user] returned as its second component. *)
Record app : Type := mk {
  db : DB;
  current_user : option login_value
}.

(** The texts of the message boxes. *)
Inductive box_text : Type :=
| FillAllFields               (* fill in all fields *)
| FromValidator (t : Validator.text)
| PasswordsDiffer             (* the passwords do not match *)
| FromRegisterUser (m : message)
| FromLoginUser (v : login_value)
| FillTitleAndContent         (* fill in title and content *)
| DataSaved                   (* data saved *)
| DataNotSaved.               (* the data could not be saved *)

Inductive screen : Type :=
| LoginFrame
| MainApp
| Dashboard.

(** What the user sees when the handler is done. *)
Inductive reaction : Type :=
| ShowError (t : box_text)
| ShowInfoThen (t : box_text) (s : screen)
| Open (s : screen)
| Return.

(** An exception that no handler catches. *)
Inductive uncaught : Type :=
| FromDatabase (e : exn)
| TypeError.

Inductive handled : Type :=
| Done (r : reaction)
| Uncaught (e : uncaught).

(** [not s] for a text. *)
Definition blank (s : string) : bool :=
  match s with
  | EmptyString => true
  | String _ _ => false
  end.

(** [s or default] for a text. *)
Definition or_default (s default : string) : string :=
  if blank s then default else s.

(** [self.current_user['id']]: the value is a dictionary after a login that
    succeeded; indexing a text by ['id'] raises [TypeError]. *)
Definition current_user_id (v : login_value) : option Z :=
  match v with
  | LoginUser id _ => Some id
  | LoginMessage _ => None
  end.

Section Handlers.

Variable pbkdf2_hmac_sha256 : bytes -> bytes -> N -> bytes.

(** [str.strip()] of Python, a function on texts. *)
Variable strip : string -> string.

(** The Unicode tables behind [char.isdigit()] and [char.isupper()]. *)
Variables unicode_isdigit unicode_isupper : N -> bool.

(** [ModernApp.login()] *)
Definition login (env : Env) (login_username login_password : string)
    (self : app) : app * handled :=
  let username := strip login_username in
  let password := login_password in
  if blank username || blank password
  then (self, Done (ShowError FillAllFields))
  else
    match login_user pbkdf2_hmac_sha256 env username password (db self) with
    | (db', Raise e) => (mk db' (current_user self), Uncaught (FromDatabase e))
    | (db', Ok (success, result)) =>
        if success
        then (mk db' (Some result), Done (Open MainApp))
        else (mk db' (current_user self),
              Done (ShowError (FromLoginUser result)))
    end.

(** [ModernApp.register()] *)
Definition register (env : Env)
    (reg_username reg_password reg_confirm_password reg_email : string)
    (self : app) : app * handled :=
  let username := strip reg_username in
  let password := reg_password in
  let confirm_password := reg_confirm_password in
  let email := strip reg_email in
  let '(valid, msg) := Validator.validate_username username in
  if negb valid then (self, Done (ShowError (FromValidator msg)))
  else
    let '(valid, msg) :=
      Validator.validate_password unicode_isdigit unicode_isupper password in
    if negb valid then (self, Done (ShowError (FromValidator msg)))
    else if negb (String.eqb password confirm_password)
    then (self, Done (ShowError PasswordsDiffer))
    else
      let '(valid, msg) :=
        if blank email then (true, Validator.NoText)
        else Validator.validate_email email in
      if negb valid then (self, Done (ShowError (FromValidator msg)))
      else
        match register_user pbkdf2_hmac_sha256 env username password email
                (db self)
        with
        | (db', Raise e) =>
            (mk db' (current_user self), Uncaught (FromDatabase e))
        | (db', Ok (success, message)) =>
            (mk db' (current_user self),
             Done (if success
                   then ShowInfoThen (FromRegisterUser message) LoginFrame
                   else ShowError (FromRegisterUser message)))
        end.

(** [ModernApp.save_data()] *)
Definition save_data (env : Env)
    (data_title data_category data_content : string) (self : app)
    : app * handled :=
  match current_user self with
  | None => (self, Done Return)
  | Some user =>
      let title := strip data_title in
      let category := or_default (strip data_category) "General" in
      let content := strip data_content in
      if blank title || blank content
      then (self, Done (ShowError FillTitleAndContent))
      else
        match current_user_id user with
        | None => (self, Uncaught TypeError)
        | Some id =>
            match save_user_data env id title content (Some category)
                    (db self)
            with
            | (db', Raise e) =>
                (mk db' (current_user self), Uncaught (FromDatabase e))
            | (db', Ok saved) =>
                (mk db' (current_user self),
                 Done (if saved then ShowInfoThen DataSaved Dashboard
                       else ShowError DataNotSaved))
            end
        end
  end.

(** [ModernApp.logout()] *)
Definition logout (self : app) : app * handled :=
  (mk (db self) None, Done (Open LoginFrame)).

(** One press of a button, whatever the fields hold and whatever SQLite
    does. *)
Inductive press : app -> app -> Prop :=
| press_login env u p self : press self (fst (login env u p self))
| press_register env u p c e self :
    press self (fst (register env u p c e self))
| press_save_data env t c d self : press self (fst (save_data env t c d self))
| press_logout self : press self (fst (logout self)).

(** The states of the application from its start on a new database. *)
Inductive running : app -> Prop :=
| running_start : running (mk empty_db None)
| running_press self self' : running self -> press self self' ->
                             running self'.

End Handlers.

(** What holds of the application while it runs: the user it holds is a
    user of the table, every username of the table is one that
    [validate_username] accepts, and no record has an empty title, text or
    category. *)
Record sound (self : app) : Prop := mk_sound {
  sound_db : consistent (db self);
  sound_current_user :
    forall v, current_user self = Some v ->
    exists id name,
      v = LoginUser id name
      /\ exists r, In r (users (db self))
                   /\ Users.id r = id /\ Users.username r = name;
  sound_usernames :
    forall r, In r (users (db self)) ->
    Validator.validate_username (Users.username r) = (true, Validator.NoText);
  sound_records :
    forall r, In r (user_data (db self)) ->
    UserData.title r <> EmptyString
    /\ UserData.data r <> EmptyString
    /\ UserData.category r <> EmptyString
}.

End ModernApp.

(** ** More values used in examples *)

(** A stand-in for [str.strip()] in examples: spaces are removed at both
    ends. *)
Fixpoint example_lstrip (s : string) : string :=
  match s with
  | String c r => if Ascii.eqb c " " then example_lstrip r else s
  | EmptyString => EmptyString
  end.

Fixpoint example_rstrip (s : string) : string :=
  match s with
  | String c r =>
      match example_rstrip r with
      | EmptyString => if Ascii.eqb c " " then EmptyString
                       else String c EmptyString
      | r' => String c r'
      end
  | EmptyString => EmptyString
  end.

Definition example_strip (s : string) : string :=
  example_rstrip (example_lstrip s).

(** Stand-ins for the Unicode tables in examples. *)
Definition example_isdigit (c : N) : bool := false.
Definition example_isupper (c : N) : bool := false.

(** A database whose only user has a stored password without separator. *)
Definition db_carol_plain : DB :=
  mkDB [Users.mk 1 "carol" "plaintext" "c@x.org" 100 None 1] [] [].

(** The database after bob registered with the password Passw0rd. *)
Definition db_bob : DB :=
  state_after
    (register_user example_kdf (store_up 100 ["001"%char; "002"%char])
       "bob" "Passw0rd" "bob@x.com")
    empty_db.

(** The application after bob logged in on [db_bob]. *)
Definition app_bob : ModernApp.app :=
  fst (ModernApp.login example_kdf example_strip (store_up 150 [])
         " bob " "Passw0rd" (ModernApp.mk db_bob None)).

(** * Properties *)

(** ** Splitting and hexadecimal text *)

Lemma split_length (sep : ascii) (s : string) :
  List.length (split sep s) = S (count sep s).
Proof.
  induction s as [|c r IH]; simpl; [reflexivity|].
  destruct (Ascii.eqb c sep); simpl.
  - now rewrite IH.
  - destruct (split sep r); simpl in *; [discriminate | exact IH].
Qed.

Lemma split_without_sep (sep : ascii) (s : string) :
  count sep s = O -> split sep s = [s].
Proof.
  induction s as [|c r IH]; simpl; [reflexivity|].
  destruct (Ascii.eqb c sep); [discriminate|].
  intros H. now rewrite (IH H).
Qed.

Lemma split_at_first_sep (sep : ascii) (a b : string) :
  count sep a = O ->
  split sep (a ++ String sep b) = a :: split sep b.
Proof.
  induction a as [|c r IH]; simpl.
  - intros _. now rewrite Ascii.eqb_refl.
  - destruct (Ascii.eqb c sep); [discriminate|].
    intros H. now rewrite (IH H).
Qed.

Lemma count_app (c : ascii) (a b : string) :
  count c (a ++ b) = (count c a + count c b)%nat.
Proof.
  induction a as [|d r IH]; simpl; [reflexivity|].
  destruct (Ascii.eqb d c); simpl; now rewrite IH.
Qed.

Lemma hex_digit_not_dollar (n : N) : (n < 16)%N -> hex_digit n <> "$"%char.
Proof.
  intros H.
  assert (Hn : In n (map N.of_nat (seq 0 16))).
  { apply in_map_iff. exists (N.to_nat n). split; [lia|].
    apply in_seq. lia. }
  simpl in Hn.
  repeat (destruct Hn as [<- | Hn]; [vm_compute; discriminate|]).
  destruct Hn.
Qed.

Lemma hex_without_dollar (b : bytes) : count "$" (hex b) = O.
Proof.
  induction b as [|a r IH]; simpl; [reflexivity|].
  assert (H16 : (N_of_ascii a < 256)%N) by apply N_ascii_bounded.
  destruct (Ascii.eqb_spec (hex_digit (N_of_ascii a / 16)) "$") as [E|_].
  - exfalso. revert E. apply hex_digit_not_dollar.
    apply N.Div0.div_lt_upper_bound. lia.
  - destruct (Ascii.eqb_spec (hex_digit (N_of_ascii a mod 16)) "$") as [E|_].
    + exfalso. revert E. apply hex_digit_not_dollar.
      apply N.mod_lt. lia.
    + exact IH.
Qed.

Lemma is_hex_char_not_dollar (c : ascii) :
  is_hex_char c = true -> Ascii.eqb c "$" = false.
Proof.
  intros H. destruct (Ascii.eqb_spec c "$") as [->|_]; [|reflexivity].
  vm_compute in H. discriminate.
Qed.

Lemma is_hex_without_dollar (s : string) :
  is_hex s = true -> count "$" s = O.
Proof.
  induction s as [|c r IH]; simpl; [reflexivity|].
  intros H. apply andb_prop in H. destruct H as [Hc Hr].
  rewrite (is_hex_char_not_dollar c Hc). auto.
Qed.

(** ** Hashing and verification *)

Section HashingFacts.

Variable kdf : bytes -> bytes -> N -> bytes.

(** The text that [hash_password] builds has exactly one separator when the
    salt has none. *)
Lemma hash_password_one_separator (rnd : bytes) (p salt : string) :
  count "$" salt = O ->
  count "$" (hash_password kdf rnd p (Some salt)) = 1%nat.
Proof.
  intros H. unfold hash_password.
  rewrite count_app, H. simpl. now rewrite hex_without_dollar.
Qed.

(** What [verify_password] does, case by case on the separators. *)
Lemma verify_password_cases (rnd : bytes) (stored p : string) :
  verify_password kdf rnd stored p =
  match split "$" stored with
  | [salt; _] =>
      Ok (String.eqb (hash_password kdf rnd p (Some salt)) stored)
  | _ => Raise ValueError
  end.
Proof.
  unfold verify_password, unpack2.
  destruct (split "$" stored) as [|a [|b [|c l]]]; reflexivity.
Qed.

Lemma verify_password_of_hash (rnd rnd' : bytes) (p salt : string) :
  count "$" salt = O ->
  verify_password kdf rnd' (hash_password kdf rnd p (Some salt)) p = Ok true.
Proof.
  intros H. rewrite verify_password_cases.
  unfold hash_password at 1.
  change (salt ++ "$" ++ ?h) with (salt ++ String "$" h).
  rewrite (split_at_first_sep "$" salt _ H).
  rewrite (split_without_sep "$" _ (hex_without_dollar _)).
  f_equal. apply String.eqb_refl.
Qed.

Lemma hash_password_fresh_salt (rnd : bytes) (p : string) :
  hash_password kdf rnd p None =
  hash_password kdf rnd p (Some (token_hex rnd)).
Proof. reflexivity. Qed.

(** C1.  With a salt given, [hash_password] is a function of the password
    and the salt alone (whatever the random source would return, the text
    is the same), and [verify_password] accepts the password against the
    text, for a salt given from the hexadecimal alphabet and for a salt
    freshly drawn by [hash_password] itself. *)
Theorem hash_password_deterministic_and_verifies
    (rnd1 rnd2 : bytes) (p salt : string) :
  is_hex salt = true ->
  hash_password kdf rnd1 p (Some salt) = hash_password kdf rnd2 p (Some salt)
  /\ verify_password kdf rnd2 (hash_password kdf rnd1 p (Some salt)) p
     = Ok true
  /\ verify_password kdf rnd2 (hash_password kdf rnd1 p None) p = Ok true.
Proof.
  intros H. split; [reflexivity|]. split.
  - apply verify_password_of_hash, is_hex_without_dollar, H.
  - rewrite hash_password_fresh_salt.
    apply verify_password_of_hash, hex_without_dollar.
Qed.

(** C9.  [verify_password] raises [ValueError] (the unpacking of the split
    into two names fails) on every stored text that does not contain
    exactly one separator, and returns a boolean on every text that
    [hash_password] produced, with a hexadecimal salt given or a fresh
    one. *)
Theorem verify_password_raises_unless_one_separator
    (rnd rnd0 : bytes) (stored p p0 salt : string) :
  (count "$" stored <> 1%nat ->
   verify_password kdf rnd stored p = Raise ValueError)
  /\ (is_hex salt = true ->
      List.length (split "$" (hash_password kdf rnd0 p0 (Some salt))) = 2%nat
      /\ exists b : bool,
           verify_password kdf rnd (hash_password kdf rnd0 p0 (Some salt)) p
           = Ok b)
  /\ (List.length (split "$" (hash_password kdf rnd0 p0 None)) = 2%nat
      /\ exists b : bool,
           verify_password kdf rnd (hash_password kdf rnd0 p0 None) p = Ok b).
Proof.
  assert (two : forall s, count "$" s = 1%nat ->
            List.length (split "$" s) = 2%nat
            /\ exists b, verify_password kdf rnd s p = Ok b).
  { intros s Hs. pose proof (split_length "$" s) as L. rewrite Hs in L.
    split; [exact L|]. rewrite verify_password_cases.
    destruct (split "$" s) as [|a [|b [|c l]]]; try discriminate.
    eexists. reflexivity. }
  split; [|split].
  - intros H. rewrite verify_password_cases.
    pose proof (split_length "$" stored) as L.
    destruct (split "$" stored) as [|a [|b [|c l]]]; try reflexivity.
    simpl in L. exfalso. apply H. congruence.
  - intros H. apply two, hash_password_one_separator,
      is_hex_without_dollar, H.
  - rewrite hash_password_fresh_salt.
    apply two, hash_password_one_separator, hex_without_dollar.
Qed.

End HashingFacts.

(** The properties at concrete values. *)

Lemma hash_password_deterministic_and_verifies_witness :
  is_hex "0a1b2c" = true
  /\ verify_password example_kdf []
       (hash_password example_kdf ["007"%char] "Passw0rd" (Some "0a1b2c"))
       "Passw0rd" = Ok true.
Proof.
  split; [reflexivity|].
  exact (proj1 (proj2
    (hash_password_deterministic_and_verifies example_kdf
       ["007"%char] [] "Passw0rd" "0a1b2c" eq_refl))).
Defined.

Lemma verify_password_raises_unless_one_separator_witness :
  count "$" "a$b$c" <> 1%nat
  /\ is_hex "0a1b2c" = true
  /\ verify_password example_kdf [] "a$b$c" "Passw0rd" = Raise ValueError
  /\ List.length (split "$" (hash_password example_kdf [] "x" (Some "0a1b2c")))
     = 2%nat.
Proof.
  assert (H : count "$" "a$b$c" <> 1%nat) by (vm_compute; discriminate).
  destruct (verify_password_raises_unless_one_separator example_kdf
              [] [] "a$b$c" "Passw0rd" "x" "0a1b2c") as [R [T _]].
  split; [exact H|]. split; [reflexivity|].
  split; [exact (R H) | exact (proj1 (T eq_refl))].
Defined.

(** ** Running the statements *)

Lemma statement_answers (env : Env) (n : nat) (db : DB) :
  raises env n = None -> statement env n db = (db, Ok tt).
Proof. intros H. unfold statement. now rewrite H. Qed.

Lemma statement_raises (env : Env) (n : nat) (db : DB) (e : sqlite3_error) :
  raises env n = Some e -> statement env n db = (db, Raise (Sqlite3Error e)).
Proof. intros H. unfold statement. now rewrite H. Qed.

(** A statement never changes the state by itself. *)
Lemma statement_state (env : Env) (n : nat) (db : DB) :
  fst (statement env n db) = db.
Proof. unfold statement. now destruct (raises env n). Qed.

Ltac unfold_method :=
  unfold register_user, login_user, save_user_data, get_user_data,
    get_categories, select_user_by_username_or_email, insert_user, commit,
    select_active_user, update_last_login, insert_user_data,
    select_user_data_by_category, select_user_data,
    select_distinct_categories, try_except_sqlite3, bind, get, put, ret,
    raise, lift, state_after, outcome.

Ltac case_statement env n :=
  unfold statement; destruct (raises env n); simpl.

(** ** Lists of rows *)

Lemma find_some_of_unique {A} (key : A -> string) (also : A -> bool)
    (l : list A) (x : A) :
  NoDup (map key l) -> In x l -> also x = true ->
  find (fun r => String.eqb (key r) (key x) && also r) l = Some x.
Proof.
  induction l as [|y l IH]; simpl; [contradiction|].
  intros ND [->|Hin] Hx.
  - now rewrite String.eqb_refl, Hx.
  - inversion ND as [|? ? Hy ND']; subst.
    destruct (String.eqb_spec (key y) (key x)) as [E|_]; simpl.
    + exfalso. apply Hy. rewrite E. now apply in_map.
    + now apply IH.
Qed.

Lemma filter_none {A} (f : A -> bool) (l : list A) :
  (forall x, In x l -> f x = false) -> filter f l = [].
Proof.
  induction l as [|y l IH]; simpl; [reflexivity|].
  intros H. rewrite (H y (or_introl eq_refl)). apply IH. auto.
Qed.

Lemma count_one_of_unique {A} (key : A -> string) (l : list A) (x : A) :
  NoDup (map key l) -> In x l ->
  List.length (filter (fun r => String.eqb (key r) (key x)) l) = 1%nat.
Proof.
  induction l as [|y l IH]; simpl; [contradiction|].
  intros ND Hin. inversion ND as [|? ? Hy ND']; subst.
  destruct Hin as [->|Hin].
  - rewrite String.eqb_refl. simpl. f_equal.
    rewrite filter_none; [reflexivity|].
    intros z Hz. apply String.eqb_neq. intros E. apply Hy. rewrite <- E.
    now apply in_map.
  - destruct (String.eqb_spec (key y) (key x)) as [E|_].
    + exfalso. apply Hy. rewrite E. now apply in_map.
    + now apply IH.
Qed.

Lemma find_some_of_exists {A} (f : A -> bool) (l : list A) (x : A) :
  In x l -> f x = true -> exists y, find f l = Some y.
Proof.
  induction l as [|y l IH]; simpl; [contradiction|].
  intros [->|Hin] Hx.
  - rewrite Hx. eauto.
  - destruct (f y); eauto.
Qed.

(** ** Ordering *)

Section Ordering.

Context {A : Type} (le : A -> A -> bool).

Lemma insert_by_perm (x : A) (l : list A) :
  Permutation (insert_by le x l) (x :: l).
Proof.
  induction l as [|y l IH]; simpl; [reflexivity|].
  destruct (le x y); [reflexivity|].
  rewrite IH. apply perm_swap.
Qed.

Lemma order_by_perm (l : list A) : Permutation (order_by le l) l.
Proof.
  induction l as [|x l IH]; simpl; [reflexivity|].
  rewrite insert_by_perm. now constructor.
Qed.

Hypothesis le_total : forall a b, le a b = true \/ le b a = true.

Lemma insert_by_sorted (x : A) (l : list A) :
  Sorted (fun a b => le a b = true) l ->
  Sorted (fun a b => le a b = true) (insert_by le x l).
Proof.
  induction l as [|y l IH]; simpl; intros S.
  - repeat constructor.
  - destruct (le x y) eqn:E.
    + constructor; [exact S | constructor; exact E].
    + inversion S as [|? ? S' H]; subst.
      constructor; [now apply IH|].
      destruct l as [|z l]; simpl.
      * constructor. destruct (le_total x y); congruence.
      * destruct (le x z); constructor.
        -- destruct (le_total x y); congruence.
        -- now inversion H.
Qed.

Lemma order_by_sorted (l : list A) :
  Sorted (fun a b => le a b = true) (order_by le l).
Proof.
  induction l as [|x l IH]; simpl; [constructor|].
  now apply insert_by_sorted.
Qed.

End Ordering.

Lemma created_at_desc_total (a b : UserData.row) :
  created_at_desc a b = true \/ created_at_desc b a = true.
Proof. unfold created_at_desc. lia. Qed.

Lemma sorted_map_select_columns (l : list UserData.row) :
  Sorted (fun a b => created_at_desc a b = true) l ->
  Sorted newest_first (map select_columns l).
Proof.
  induction 1 as [|x l S IH H]; simpl; constructor; [exact IH|].
  destruct H as [|y l H]; simpl; constructor.
  unfold newest_first, created_at_desc in *. simpl. lia.
Qed.

(** ** The record store *)

(** What [get_user_data] answers when SQLite answers. *)
Lemma get_user_data_answers (env : Env) (user_id : Z)
    (category : option string) (db : DB) :
  raises env 0 = None ->
  get_user_data env user_id category db =
  (db, Ok (map select_columns
             (order_by created_at_desc
                (filter (listed user_id category) (user_data db))))).
Proof.
  intros H.
  assert (F : filter (fun r => (UserData.user_id r =? user_id) && true)
                (user_data db)
              = filter (fun r => UserData.user_id r =? user_id)
                  (user_data db)).
  { apply filter_ext. intros r. apply andb_true_r. }
  unfold listed.
  destruct category as [[|c s]|]; unfold_method;
    rewrite (statement_answers env 0 db H); try rewrite F; reflexivity.
Qed.

(** What the two listings answer when SQLite raises. *)
Lemma listings_when_store_raises (env : Env) (user_id : Z)
    (category : option string) (db : DB) (e : sqlite3_error) :
  raises env 0 = Some e ->
  get_user_data env user_id category db = (db, Ok [])
  /\ get_categories env user_id db = (db, Ok []).
Proof.
  intros H. split.
  - destruct category as [[|c s]|]; unfold_method;
      now rewrite (statement_raises env 0 db e H).
  - unfold_method. now rewrite (statement_raises env 0 db e H).
Qed.

(** The listings never raise and never change the database. *)
Lemma get_user_data_returns (env : Env) (user_id : Z)
    (category : option string) (db : DB) :
  exists rows, get_user_data env user_id category db = (db, Ok rows).
Proof.
  destruct (raises env 0) as [e|] eqn:H.
  - eexists. apply (listings_when_store_raises env user_id category db e H).
  - eexists. apply get_user_data_answers, H.
Qed.

(** C7, as the code has it.  The row that [save_user_data] inserts carries
    the category it was given, unchanged: [General] when the call leaves the
    category out, and the empty text when the call gives the empty text. *)
Theorem save_user_data_category (env : Env) (db : DB) (user_id : Z)
    (title data : string) (category : option string) :
  raises env 0 = None ->
  raises env 1 = None ->
  existsb (fun r => Users.id r =? user_id) (users db) = true ->
  save_user_data env user_id title data category db =
  (mkDB (users db)
        (user_data db ++
           [UserData.mk (next_id (map UserData.id (user_data db)))
              user_id title data
              match category with
              | None => "General"
              | Some c => c
              end
              (CURRENT_TIMESTAMP env) (CURRENT_TIMESTAMP env)])
        (login_attempts db),
   Ok true).
Proof.
  intros H0 H1 Hu. unfold_method.
  rewrite (statement_answers env 0 db H0), Hu.
  now rewrite statement_answers.
Qed.

Lemma save_user_data_category_witness :
  exists r,
    user_data (state_after
                 (save_user_data (store_up 300 []) 1 "T" "B" None) db_alice)
    = [r]
    /\ UserData.category r = "General".
Proof.
  unfold state_after.
  rewrite (save_user_data_category (store_up 300 []) db_alice 1 "T" "B" None
             eq_refl eq_refl eq_refl).
  eexists. split; reflexivity.
Defined.

(** C7 as stated fails: saving with the empty text as category inserts a
    row whose category is the empty text, not [General]. *)
Lemma save_user_data_blank_category_kept :
  exists r,
    user_data (state_after
                 (save_user_data (store_up 300 []) 1 "T" "B" (Some ""))
                 db_alice)
    = [r]
    /\ UserData.category r <> "General".
Proof.
  eexists. split; [vm_compute; reflexivity|].
  simpl. discriminate.
Qed.

(** C8, as the code has it.  For an owner id that SQLite can store,
    [get_user_data] never raises and never changes the database.  When
    SQLite answers, the result is, newest first, a rearrangement of the rows
    of the owner, restricted to the rows of exactly the given category when
    a category other than the empty text is given; a category left out or
    given as the empty text restricts nothing.  When no row matches, the
    result is the empty list. *)
Theorem get_user_data_lists_owner_rows (env : Env) (db : DB) (user_id : Z)
    (category : option string) :
  sqlite_integer user_id = true ->
  exists rows,
    get_user_data env user_id category db = (db, Ok rows)
    /\ (raises env 0 = None ->
        Permutation rows
          (map select_columns
             (filter (listed user_id category) (user_data db)))
        /\ Sorted newest_first rows
        /\ ((forall r, In r (user_data db) ->
                       listed user_id category r = false) ->
            rows = [])).
Proof.
  intros _.
  destruct (get_user_data_returns env user_id category db) as [rows E].
  exists rows. split; [exact E|]. intros H.
  rewrite (get_user_data_answers env user_id category db H) in E.
  injection E as <-. split; [|split].
  - apply Permutation_map, order_by_perm.
  - apply sorted_map_select_columns, order_by_sorted,
      created_at_desc_total.
  - intros Hn. now rewrite (filter_none _ _ Hn).
Qed.

Lemma get_user_data_lists_owner_rows_witness :
  outcome (get_user_data (store_up 300 []) 1 (Some "Other")) db_alice_work
  = Ok [].
Proof.
  destruct (get_user_data_lists_owner_rows (store_up 300 []) db_alice_work
              1 (Some "Other") eq_refl) as [rows [E H]].
  unfold outcome. rewrite E. simpl. f_equal.
  apply (proj2 (proj2 (H eq_refl))).
  intros r [<-|[]]. reflexivity.
Defined.

(** C8 as stated fails: with the empty text given as category, a record of
    category Work is returned. *)
Lemma get_user_data_blank_category_unfiltered :
  exists t,
    outcome (get_user_data (store_up 300 []) 1 (Some "")) db_alice_work
    = Ok [t]
    /\ tuple_category t <> "".
Proof.
  eexists. split; [vm_compute; reflexivity|].
  simpl. discriminate.
Qed.

(** C10.  For an owner id that SQLite can store: when SQLite raises,
    [get_user_data] and [get_categories] return the empty list, which is
    also what they return, with SQLite answering, for a user without
    records: the caller cannot tell the two apart. *)
Theorem listings_swallow_store_failure (down up : Env) (db db' : DB)
    (user_id : Z) (category : option string) (e : sqlite3_error) :
  sqlite_integer user_id = true ->
  raises down 0 = Some e ->
  raises up 0 = None ->
  (forall r, In r (user_data db') -> UserData.user_id r <> user_id) ->
  outcome (get_user_data down user_id category) db = Ok []
  /\ outcome (get_categories down user_id) db = Ok []
  /\ outcome (get_user_data up user_id category) db' = Ok []
  /\ outcome (get_categories up user_id) db' = Ok [].
Proof.
  intros _ Hd Hu Hn.
  destruct (listings_when_store_raises down user_id category db e Hd)
    as [E1 E2].
  unfold outcome. rewrite E1, E2.
  assert (F : forall f, filter (fun r => (UserData.user_id r =? user_id)
                                          && f r) (user_data db') = []).
  { intros f. apply filter_none. intros r Hr.
    destruct (Z.eqb_spec (UserData.user_id r) user_id) as [E|_];
      [now apply Hn in Hr | reflexivity]. }
  repeat split.
  - rewrite (get_user_data_answers up user_id category db' Hu).
    unfold listed. now rewrite F.
  - unfold_method. rewrite (statement_answers up 0 db' Hu).
    rewrite filter_none; [reflexivity|].
    intros r Hr. apply Z.eqb_neq. now apply Hn.
Qed.

Lemma listings_swallow_store_failure_witness :
  outcome (get_user_data (store_down 300) 1 None) db_alice_work = Ok []
  /\ outcome (get_categories (store_down 300) 1) db_alice_work = Ok []
  /\ outcome (get_user_data (store_up 300 []) 1 None) db_alice = Ok []
  /\ outcome (get_categories (store_up 300 []) 1) db_alice = Ok [].
Proof.
  apply (listings_swallow_store_failure (store_down 300) (store_up 300 [])
           db_alice_work db_alice 1 None OperationalError
           eq_refl eq_refl eq_refl).
  intros r [].
Defined.

(** ** Registration and login *)

Section Credentials.

Variable kdf : bytes -> bytes -> N -> bytes.

(** The duplicate check of [register_user] finds a row: the call answers
    that the user exists and writes nothing. *)
Lemma register_user_duplicate (env : Env) (db : DB)
    (username password email : string) (r : Users.row) :
  raises env 0 = None ->
  In r (users db) ->
  String.eqb (Users.username r) username
  || String.eqb (Users.email r) email = true ->
  register_user kdf env username password email db
  = (db, Ok (false, MsgDuplicateUser)).
Proof.
  intros H Hin Hr. unfold_method.
  rewrite (statement_answers env 0 db H).
  destruct (find_some_of_exists
              (fun r => String.eqb (Users.username r) username
                        || String.eqb (Users.email r) email)
              (users db) r Hin Hr) as [y ->].
  reflexivity.
Qed.

(** When [register_user] reports success, the row it was asked to insert is
    in the table. *)
Lemma register_user_success_inserts (env : Env) (db : DB)
    (username password email : string) :
  outcome (register_user kdf env username password email) db
  = Ok (true, MsgRegistered) ->
  exists r,
    In r (users (state_after
                   (register_user kdf env username password email) db))
    /\ Users.username r = username /\ Users.email r = email.
Proof.
  unfold_method. case_statement env 0%nat; [discriminate|].
  destruct (find _ (users db)); simpl; [discriminate|].
  case_statement env 1%nat; [discriminate|].
  destruct (existsb _ (users db)); simpl; [discriminate|].
  case_statement env 2%nat; [discriminate|].
  intros _. eexists. split; [apply in_or_app; right; left; reflexivity|].
  split; reflexivity.
Qed.

(** The [UNIQUE] constraint on the username holds in every state that the
    methods reach from one where it holds. *)
Lemma register_user_keeps_username_unique (env : Env) (db : DB)
    (username password email : string) :
  username_unique db ->
  username_unique
    (state_after (register_user kdf env username password email) db).
Proof.
  unfold username_unique. intros ND. unfold_method.
  case_statement env 0%nat; [exact ND|].
  destruct (find _ (users db)); simpl; [exact ND|].
  case_statement env 1%nat; [exact ND|].
  destruct (existsb _ (users db)) eqn:E; simpl; [exact ND|].
  assert (ND' : NoDup (map Users.username (users db) ++ [username])).
  { apply NoDup_app; [exact ND | repeat constructor; intros [] |].
    intros u Hu [<-|[]].
    apply in_map_iff in Hu. destruct Hu as [r [Er Hr]].
    assert (X : existsb (fun r => String.eqb (Users.username r) username
                                  || String.eqb (Users.email r) email)
                  (users db) = true).
    { apply existsb_exists. exists r. split; [exact Hr|].
      rewrite Er, String.eqb_refl. reflexivity. }
    congruence. }
  case_statement env 2%nat; simpl; now rewrite map_app.
Qed.

Lemma login_user_keeps_username_unique (env : Env) (db : DB)
    (username password : string) :
  username_unique db ->
  username_unique (state_after (login_user kdf env username password) db).
Proof.
  unfold username_unique. intros ND. unfold_method.
  case_statement env 0%nat; [exact ND|].
  destruct (find _ (users db)) as [user|]; simpl; [|exact ND].
  destruct (verify_password kdf _ _ _) as [[|]|[|e]]; simpl;
    try exact ND.
  assert (E : forall l, map Users.username
                (map (fun r => if Users.id r =? Users.id user
                               then Users.mk (Users.id r) (Users.username r)
                                      (Users.password r) (Users.email r)
                                      (Users.created_at r)
                                      (Some (CURRENT_TIMESTAMP env))
                                      (Users.is_active r)
                               else r) l)
              = map Users.username l).
  { induction l as [|r l IH]; simpl; [reflexivity|].
    rewrite IH. now destruct (Users.id r =? Users.id user). }
  case_statement env 1%nat; [exact ND|].
  case_statement env 2%nat; simpl; now rewrite E.
Qed.

Lemma empty_db_username_unique : username_unique empty_db.
Proof. constructor. Qed.

(** C2, as the code has it: once a user without email is registered, the
    registration of any other user without email is rejected as a
    duplicate, because the empty email of the first row is equal to the
    empty email asked for. *)
Theorem register_user_second_empty_email_rejected (env1 env2 : Env) (db : DB)
    (username1 password1 username2 password2 : string) :
  outcome (register_user kdf env1 username1 password1 "") db
  = Ok (true, MsgRegistered) ->
  raises env2 0 = None ->
  outcome (register_user kdf env2 username2 password2 "")
    (state_after (register_user kdf env1 username1 password1 "") db)
  = Ok (false, MsgDuplicateUser).
Proof.
  intros H1 H2.
  destruct (register_user_success_inserts env1 db username1 password1 "" H1)
    as [r [Hin [_ He]]].
  unfold outcome at 1.
  rewrite (register_user_duplicate env2 _ username2 password2 "" r H2 Hin);
    [reflexivity|].
  rewrite He. apply orb_true_r.
Qed.

(** C3, as the code has it: [login_user] never writes to the table of
    login attempts, whatever the outcome of the call. *)
Theorem login_user_records_no_attempt (env : Env) (db : DB)
    (username password : string) :
  login_attempts (state_after (login_user kdf env username password) db)
  = login_attempts db.
Proof.
  unfold_method. case_statement env 0%nat; [reflexivity|].
  destruct (find _ (users db)) as [user|]; simpl; [|reflexivity].
  destruct (verify_password kdf _ _ _) as [[|]|[|e]]; simpl;
    try reflexivity.
  case_statement env 1%nat; [reflexivity|].
  case_statement env 2%nat; reflexivity.
Qed.

(** C4.  In a state where a user named [username] exists, registering that
    name again answers that the user exists and leaves the database as it
    was; the table still has exactly one row of that name. *)
Theorem register_user_existing_username_rejected (env : Env) (db : DB)
    (username password email : string) (r : Users.row) :
  raises env 0 = None ->
  username_unique db ->
  In r (users db) ->
  Users.username r = username ->
  register_user kdf env username password email db
  = (db, Ok (false, MsgDuplicateUser))
  /\ count_username username db = 1%nat
  /\ count_username username
       (state_after (register_user kdf env username password email) db)
     = 1%nat.
Proof.
  intros H ND Hin Hu.
  assert (E : register_user kdf env username password email db
              = (db, Ok (false, MsgDuplicateUser))).
  { apply (register_user_duplicate env db username password email r H Hin).
    rewrite Hu, String.eqb_refl. reflexivity. }
  assert (C : count_username username db = 1%nat).
  { unfold count_username. rewrite <- Hu.
    now apply (count_one_of_unique Users.username). }
  unfold state_after. rewrite E. auto.
Qed.

(** C5.  For an active user of the table and a password that
    [verify_password] rejects against the stored text, [login_user] answers
    that the password is wrong and leaves the database, and so the
    [last_login] of the user, as it was. *)
Theorem login_user_wrong_password (env : Env) (db : DB)
    (username password : string) (user : Users.row) :
  raises env 0 = None ->
  username_unique db ->
  In user (users db) ->
  Users.username user = username ->
  Users.is_active user = 1 ->
  verify_password kdf (random_bytes env) (Users.password user) password
  = Ok false ->
  login_user kdf env username password db
  = (db, Ok (false, LoginMessage MsgWrongPassword))
  /\ In user (users (state_after (login_user kdf env username password) db)).
Proof.
  intros H ND Hin Hu Ha Hv.
  assert (E : login_user kdf env username password db
              = (db, Ok (false, LoginMessage MsgWrongPassword))).
  { unfold_method. rewrite (statement_answers env 0 db H).
    rewrite <- Hu.
    rewrite (find_some_of_unique Users.username
               (fun r => Users.is_active r =? 1) (users db) user ND Hin);
      [|now apply Z.eqb_eq].
    now rewrite Hv. }
  unfold state_after. rewrite E. auto.
Qed.

End Credentials.

Lemma register_user_second_empty_email_rejected_witness :
  "alice" <> "bob_1"
  /\ outcome (register_user example_kdf (store_up 200 ["002"%char])
                "bob_1" "Passw0rd2" "")
       (state_after (register_user example_kdf (store_up 100 ["001"%char])
                       "alice" "Passw0rd1" "") empty_db)
     = Ok (false, MsgDuplicateUser).
Proof.
  split; [discriminate|].
  apply (register_user_second_empty_email_rejected example_kdf
           (store_up 100 ["001"%char]) (store_up 200 ["002"%char]) empty_db
           "alice" "Passw0rd1" "bob_1" "Passw0rd2");
    reflexivity.
Defined.

Lemma register_user_existing_username_rejected_witness :
  count_username "alice"
    (state_after (register_user example_kdf (store_up 200 [])
                    "alice" "Passw0rd2" "a@b.com") db_alice)
  = 1%nat.
Proof.
  apply (register_user_existing_username_rejected example_kdf
           (store_up 200 []) db_alice "alice" "Passw0rd2" "a@b.com"
           (Users.mk 1 "alice" "0a$00" "" 100 None 1)).
  - reflexivity.
  - repeat constructor. intros [].
  - left. reflexivity.
  - reflexivity.
Defined.

Lemma login_user_wrong_password_witness :
  login_user example_kdf (store_up 200 []) "alice" "wrong" db_alice
  = (db_alice, Ok (false, LoginMessage MsgWrongPassword)).
Proof.
  apply (login_user_wrong_password example_kdf (store_up 200 []) db_alice
           "alice" "wrong" (Users.mk 1 "alice" "0a$00" "" 100 None 1)).
  - reflexivity.
  - repeat constructor. intros [].
  - left. reflexivity.
  - reflexivity.
  - reflexivity.
  - reflexivity.
Defined.

(** * Further properties of the methods *)

(** ** Row identifiers *)

Lemma next_id_above (ids : list Z) (x : Z) : In x ids -> x < next_id ids.
Proof.
  unfold next_id. induction ids as [|y l IH]; [contradiction|].
  cbn [fold_right In]. intros [->|H].
  - pose proof (Z.le_max_l x (fold_right Z.max 0 l)). lia.
  - specialize (IH H).
    pose proof (Z.le_max_r y (fold_right Z.max 0 l)). lia.
Qed.

Lemma next_id_fresh (ids : list Z) : ~ In (next_id ids) ids.
Proof. intros H. apply next_id_above in H. lia. Qed.

Lemma next_id_positive (ids : list Z) : 0 < next_id ids.
Proof.
  unfold next_id. induction ids as [|y l IH]; cbn [fold_right]; [lia|].
  pose proof (Z.le_max_r y (fold_right Z.max 0 l)). lia.
Qed.

Lemma find_none_existsb {A} (f : A -> bool) (l : list A) :
  find f l = None -> existsb f l = false.
Proof.
  induction l as [|x l IH]; simpl; [reflexivity|].
  destruct (f x); [discriminate | exact IH].
Qed.

Lemma find_none_forall {A} (f : A -> bool) (l : list A) :
  find f l = None -> forall x, In x l -> f x = false.
Proof.
  intros H x Hx. destruct (f x) eqn:E; [|reflexivity].
  destruct (find_some_of_exists f l x Hx E) as [y Hy]. congruence.
Qed.

Lemma find_app_last {A} (f : A -> bool) (l : list A) (x : A) :
  (forall y, In y l -> f y = false) -> f x = true ->
  find f (l ++ [x]) = Some x.
Proof.
  induction l as [|y l IH]; simpl; intros Hl Hx.
  - now rewrite Hx.
  - rewrite (Hl y (or_introl eq_refl)). apply IH; auto.
Qed.

Lemma NoDup_snoc {A} (l : list A) (x : A) :
  NoDup l -> ~ In x l -> NoDup (l ++ [x]).
Proof.
  intros ND Hx. apply NoDup_app; [exact ND | repeat constructor; intros [] |].
  intros a Ha [<-|[]]. now apply Hx.
Qed.

(** ** The methods case by case *)

Section MethodCases.

Variable kdf : bytes -> bytes -> N -> bytes.

(** [register_user], by what SQLite does and what the table holds. *)
Lemma register_user_cases (env : Env) (db : DB)
    (username password email : string) :
  register_user kdf env username password email db =
  match raises env 0 with
  | Some e => (db, Ok (false, MsgDatabaseError e))
  | None =>
      match find (fun r => String.eqb (Users.username r) username
                           || String.eqb (Users.email r) email) (users db)
      with
      | Some _ => (db, Ok (false, MsgDuplicateUser))
      | None =>
          match raises env 1 with
          | Some e => (db, Ok (false, MsgDatabaseError e))
          | None =>
              let db' :=
                mkDB (users db ++
                        [registered_row kdf env db username password email])
                     (user_data db) (login_attempts db) in
              match raises env 2 with
              | Some e => (db', Ok (false, MsgDatabaseError e))
              | None => (db', Ok (true, MsgRegistered))
              end
          end
      end
  end.
Proof.
  unfold_method. case_statement env 0%nat; [reflexivity|].
  destruct (find _ (users db)) eqn:F; simpl; [reflexivity|].
  case_statement env 1%nat; [reflexivity|].
  rewrite (find_none_existsb _ _ F). simpl.
  case_statement env 2%nat; reflexivity.
Qed.

(** [login_user], by what SQLite does and what the table holds. *)
Lemma login_user_cases (env : Env) (db : DB) (username password : string) :
  login_user kdf env username password db =
  match raises env 0 with
  | Some e => (db, Ok (false, LoginMessage (MsgDatabaseError e)))
  | None =>
      match find (fun r => String.eqb (Users.username r) username
                           && (Users.is_active r =? 1)) (users db)
      with
      | None => (db, Ok (false, LoginMessage MsgNotFoundOrInactive))
      | Some user =>
          match verify_password kdf (random_bytes env)
                  (Users.password user) password
          with
          | Raise e =>
              match e with
              | Sqlite3Error e' =>
                  (db, Ok (false, LoginMessage (MsgDatabaseError e')))
              | _ => (db, Raise e)
              end
          | Ok false => (db, Ok (false, LoginMessage MsgWrongPassword))
          | Ok true =>
              match raises env 1 with
              | Some e => (db, Ok (false, LoginMessage (MsgDatabaseError e)))
              | None =>
                  let db' :=
                    mkDB (map (fun r =>
                                 if Users.id r =? Users.id user
                                 then logged_in_at (CURRENT_TIMESTAMP env) r
                                 else r) (users db))
                         (user_data db) (login_attempts db) in
                  match raises env 2 with
                  | Some e =>
                      (db', Ok (false, LoginMessage (MsgDatabaseError e)))
                  | None =>
                      (db', Ok (true, LoginUser (Users.id user)
                                        (Users.username user)))
                  end
              end
          end
      end
  end.
Proof.
  unfold_method. case_statement env 0%nat; [reflexivity|].
  destruct (find _ (users db)) as [user|]; simpl; [|reflexivity].
  destruct (verify_password kdf _ _ _) as [[|]|[|e]]; simpl;
    try reflexivity.
  case_statement env 1%nat; [reflexivity|].
  case_statement env 2%nat; reflexivity.
Qed.

(** [verify_password] never raises anything but [ValueError]. *)
Lemma verify_password_raises_only_value_error (rnd : bytes)
    (stored p : string) (e : exn) :
  verify_password kdf rnd stored p = Raise e -> e = ValueError.
Proof.
  rewrite verify_password_cases.
  destruct (split "$" stored) as [|a [|b [|c l]]]; congruence.
Qed.

(** Without exactly one separator in the stored text, unpacking fails. *)
Lemma verify_password_not_one_separator (rnd : bytes) (stored p : string) :
  count "$" stored <> 1%nat ->
  verify_password kdf rnd stored p = Raise ValueError.
Proof.
  intros H. rewrite verify_password_cases.
  pose proof (split_length "$" stored) as L.
  destruct (split "$" stored) as [|a [|b [|c l]]]; try reflexivity.
  simpl in L. exfalso. apply H. congruence.
Qed.

End MethodCases.

Lemma register_user_returns (kdf : bytes -> bytes -> N -> bytes) (env : Env)
    (db : DB) (username password email : string) :
  exists r, outcome (register_user kdf env username password email) db
            = Ok r.
Proof.
  unfold outcome. rewrite register_user_cases.
  destruct (raises env 0); [simpl; eauto|].
  destruct (find _ (users db)); [simpl; eauto|].
  destruct (raises env 1); [simpl; eauto|].
  cbv zeta. destruct (raises env 2); simpl; eauto.
Qed.

(** [save_user_data], by what SQLite does and what the tables hold. *)
Lemma save_user_data_cases (env : Env) (db : DB) (user_id : Z)
    (title data : string) (category : option string) :
  save_user_data env user_id title data category db =
  match raises env 0 with
  | Some _ => (db, Ok false)
  | None =>
      if existsb (fun r => Users.id r =? user_id) (users db)
      then
        let db' :=
          mkDB (users db)
               (user_data db ++
                  [saved_row env db user_id title data
                     match category with
                     | None => "General"
                     | Some c => c
                     end])
               (login_attempts db) in
        match raises env 1 with
        | Some _ => (db', Ok false)
        | None => (db', Ok true)
        end
      else (db, Ok false)
  end.
Proof.
  unfold_method. case_statement env 0%nat; [reflexivity|].
  destruct (existsb _ (users db)); simpl; [|reflexivity].
  case_statement env 1%nat; reflexivity.
Qed.

Lemma save_user_data_returns (env : Env) (db : DB) (user_id : Z)
    (title data : string) (category : option string) :
  exists b, outcome (save_user_data env user_id title data category) db
            = Ok b.
Proof.
  unfold outcome. rewrite save_user_data_cases.
  destruct (raises env 0); [simpl; eauto|].
  destruct (existsb _ (users db)); [|simpl; eauto].
  cbv zeta. destruct (raises env 1); simpl; eauto.
Qed.

(** What [get_categories] answers when SQLite answers. *)
Lemma get_categories_answers (env : Env) (user_id : Z) (db : DB) :
  raises env 0 = None ->
  get_categories env user_id db =
  (db, Ok (order_by String.leb
             (distinct (map UserData.category
                          (filter (fun r => UserData.user_id r =? user_id)
                                  (user_data db)))))).
Proof.
  intros H. unfold_method. now rewrite (statement_answers env 0 db H).
Qed.

(** ** Registration and login, continued *)

Section CredentialsMore.

Variable kdf : bytes -> bytes -> N -> bytes.

(** A registration that meets no row of the same username or email, with
    SQLite answering, adds exactly one row at the end of [users] and touches
    nothing else.  The row has an id that no row had, is active, has no
    [last_login], and stores a text against which the password verifies. *)
Theorem register_user_adds_one_row (env : Env) (db : DB)
    (username password email : string) :
  raises env 0 = None -> raises env 1 = None -> raises env 2 = None ->
  (forall r, In r (users db) ->
             Users.username r <> username /\ Users.email r <> email) ->
  let new := registered_row kdf env db username password email in
  register_user kdf env username password email db
  = (mkDB (users db ++ [new]) (user_data db) (login_attempts db),
     Ok (true, MsgRegistered))
  /\ ~ In (Users.id new) (map Users.id (users db))
  /\ Users.is_active new = 1
  /\ Users.last_login new = None
  /\ verify_password kdf (random_bytes env) (Users.password new) password
     = Ok true.
Proof.
  intros H0 H1 H2 Hfree new.
  rewrite register_user_cases, H0, H1, H2.
  assert (F : find (fun r => String.eqb (Users.username r) username
                             || String.eqb (Users.email r) email) (users db)
              = None).
  { destruct (find _ (users db)) as [r|] eqn:F; [|reflexivity].
    apply find_some in F. destruct F as [Hin Hr].
    destruct (Hfree r Hin) as [Nu Ne].
    apply String.eqb_neq in Nu, Ne. rewrite Nu, Ne in Hr. discriminate. }
  rewrite F. split; [reflexivity|]. split; [apply next_id_fresh|].
  split; [reflexivity|]. split; [reflexivity|].
  unfold new, registered_row. simpl.
  rewrite hash_password_fresh_salt.
  apply verify_password_of_hash, hex_without_dollar.
Qed.

(** After a registration that reported success, a login with the same
    username and password succeeds: it returns the id and the username of
    the new row and stamps its [last_login]. *)
Theorem register_user_then_login_user (env1 env2 : Env) (db : DB)
    (username password email : string) :
  outcome (register_user kdf env1 username password email) db
  = Ok (true, MsgRegistered) ->
  raises env2 0 = None -> raises env2 1 = None -> raises env2 2 = None ->
  let db1 := state_after (register_user kdf env1 username password email) db in
  let new := registered_row kdf env1 db username password email in
  outcome (login_user kdf env2 username password) db1
  = Ok (true, LoginUser (Users.id new) username)
  /\ In (logged_in_at (CURRENT_TIMESTAMP env2) new)
        (users (state_after (login_user kdf env2 username password) db1)).
Proof.
  intros Hreg H0 H1 H2 db1 new. subst db1. revert Hreg.
  unfold outcome, state_after. rewrite register_user_cases.
  destruct (raises env1 0); [discriminate|].
  destruct (find _ (users db)) eqn:F; [discriminate|].
  destruct (raises env1 1); [discriminate|].
  cbv zeta. destruct (raises env1 2); [discriminate|].
  intros _. cbn [fst snd].
  rewrite login_user_cases, H0. cbn [users].
  fold new.
  rewrite (find_app_last
             (fun r => String.eqb (Users.username r) username
                       && (Users.is_active r =? 1)) (users db) new).
  - assert (V : verify_password kdf (random_bytes env2)
                  (Users.password new) password = Ok true).
    { unfold new, registered_row. simpl.
      rewrite hash_password_fresh_salt.
      apply verify_password_of_hash, hex_without_dollar. }
    rewrite V, H1. cbv zeta. rewrite H2. cbn [fst snd users].
    split; [reflexivity|].
    rewrite map_app. apply in_or_app. right. simpl.
    rewrite Z.eqb_refl. left. reflexivity.
  - intros y Hy. pose proof (find_none_forall _ _ F y Hy) as N.
    apply orb_false_elim in N. destruct N as [N _]. now rewrite N.
  - unfold new, registered_row. simpl. now rewrite String.eqb_refl.
Qed.

(** A login under a name that no active row has answers that the user is
    not found or blocked, and leaves the database as it was. *)
Theorem login_user_unknown_or_inactive (env : Env) (db : DB)
    (username password : string) :
  raises env 0 = None ->
  (forall r, In r (users db) -> Users.username r = username ->
             Users.is_active r <> 1) ->
  login_user kdf env username password db
  = (db, Ok (false, LoginMessage MsgNotFoundOrInactive)).
Proof.
  intros H0 Hn. rewrite login_user_cases, H0.
  destruct (find _ (users db)) as [r|] eqn:F; [|reflexivity].
  apply find_some in F. destruct F as [Hin Hr].
  apply andb_prop in Hr. destruct Hr as [Hu Ha].
  apply String.eqb_eq in Hu. apply Z.eqb_eq in Ha.
  now destruct (Hn r Hin Hu).
Qed.

(** A login of an active user with a password that verifies returns the id
    and the name of the user.  Afterwards the rows of that id carry the
    time of the call as [last_login], every other row of [users] is as it
    was, and the other two tables are untouched. *)
Theorem login_user_success (env : Env) (db : DB)
    (username password : string) (user : Users.row) :
  raises env 0 = None -> raises env 1 = None -> raises env 2 = None ->
  username_unique db ->
  In user (users db) ->
  Users.username user = username ->
  Users.is_active user = 1 ->
  verify_password kdf (random_bytes env) (Users.password user) password
  = Ok true ->
  let db' := state_after (login_user kdf env username password) db in
  outcome (login_user kdf env username password) db
  = Ok (true, LoginUser (Users.id user) username)
  /\ In (logged_in_at (CURRENT_TIMESTAMP env) user) (users db')
  /\ (forall r, In r (users db) -> Users.id r <> Users.id user ->
                In r (users db'))
  /\ map Users.username (users db') = map Users.username (users db)
  /\ map Users.password (users db') = map Users.password (users db)
  /\ user_data db' = user_data db
  /\ login_attempts db' = login_attempts db.
Proof.
  intros H0 H1 H2 ND Hin Hu Ha Hv db'. subst db' username.
  unfold outcome, state_after. rewrite login_user_cases, H0.
  rewrite (find_some_of_unique Users.username
             (fun r => Users.is_active r =? 1) (users db) user ND Hin);
    [|now apply Z.eqb_eq].
  rewrite Hv, H1. cbv zeta. rewrite H2. cbn [fst snd users user_data
                                               login_attempts].
  split; [reflexivity|].
  split.
  { apply in_map_iff. exists user. now rewrite Z.eqb_refl. }
  split.
  { intros r Hr Hne. apply in_map_iff. exists r.
    apply Z.eqb_neq in Hne. now rewrite Hne. }
  split; [|split; [|split; reflexivity]].
  all: rewrite map_map; apply map_ext; intros r;
    now destruct (Users.id r =? Users.id user).
Qed.

(** A stored password that does not have exactly one separator makes the
    login of its user raise [ValueError]: [login_user] only catches
    [sqlite3.Error], so the exception reaches the caller. *)
Theorem login_user_malformed_hash_raises (env : Env) (db : DB)
    (username password : string) (user : Users.row) :
  raises env 0 = None ->
  username_unique db ->
  In user (users db) ->
  Users.username user = username ->
  Users.is_active user = 1 ->
  count "$" (Users.password user) <> 1%nat ->
  login_user kdf env username password db = (db, Raise ValueError).
Proof.
  intros H0 ND Hin Hu Ha Hc. rewrite login_user_cases, H0. rewrite <- Hu.
  rewrite (find_some_of_unique Users.username
             (fun r => Users.is_active r =? 1) (users db) user ND Hin);
    [|now apply Z.eqb_eq].
  now rewrite (verify_password_not_one_separator kdf
                 (random_bytes env) (Users.password user) password Hc).
Qed.

(** A registration under the email of an existing row is answered as a
    duplicate, whatever the username, and writes nothing. *)
Theorem register_user_existing_email_rejected (env : Env) (db : DB)
    (username password email : string) (r : Users.row) :
  raises env 0 = None ->
  In r (users db) ->
  Users.email r = email ->
  register_user kdf env username password email db
  = (db, Ok (false, MsgDuplicateUser)).
Proof.
  intros H0 Hin He.
  apply (register_user_duplicate kdf env db username password email r H0 Hin).
  rewrite He, String.eqb_refl. apply orb_true_r.
Qed.


End CredentialsMore.

(** ** What every reachable state satisfies *)

Lemma get_categories_returns (env : Env) (user_id : Z) (db : DB) :
  exists rows, get_categories env user_id db = (db, Ok rows).
Proof.
  destruct (raises env 0) as [e|] eqn:H.
  - eexists. apply (listings_when_store_raises env user_id None db e H).
  - eexists. apply get_categories_answers, H.
Qed.

Lemma consistent_new : consistent empty_db.
Proof.
  constructor; simpl; try constructor; intros ? [].
Qed.

Lemma consistent_save_user_data (env : Env) (db : DB) (user_id : Z)
    (title data : string) (category : option string) :
  consistent db ->
  consistent (state_after (save_user_data env user_id title data category) db).
Proof.
  intros C. unfold state_after. rewrite save_user_data_cases.
  destruct (raises env 0); [exact C|].
  destruct (existsb _ (users db)) eqn:E; [|exact C].
  assert (C' : consistent
                 (mkDB (users db)
                    (user_data db ++
                       [saved_row env db user_id title data
                          match category with
                          | None => "General"
                          | Some c => c
                          end])
                    (login_attempts db))).
  { destruct C as [C1 C2 C3 C4 C5 C6 C7].
    constructor; simpl; try assumption.
    - rewrite map_app. apply NoDup_snoc; [exact C4 | apply next_id_fresh].
    - intros r Hr. apply in_app_or in Hr. destruct Hr as [Hr|[<-|[]]].
      + now apply C5.
      + simpl. apply existsb_exists in E. destruct E as [u [Hu Eu]].
        apply Z.eqb_eq in Eu. subst user_id. now apply in_map. }
  cbv zeta. destruct (raises env 1); exact C'.
Qed.

Section ReachableFacts.

Variable kdf : bytes -> bytes -> N -> bytes.

Lemma consistent_register_user (env : Env) (db : DB)
    (username password email : string) :
  consistent db ->
  consistent (state_after (register_user kdf env username password email) db).
Proof.
  intros C. unfold state_after. rewrite register_user_cases.
  destruct (raises env 0); [exact C|].
  destruct (find _ (users db)) eqn:F; [exact C|].
  destruct (raises env 1); [exact C|].
  assert (C' : consistent
                 (mkDB (users db ++
                          [registered_row kdf env db username password email])
                    (user_data db) (login_attempts db))).
  { destruct C as [C1 C2 C3 C4 C5 C6 C7].
    pose proof (find_none_forall _ _ F) as N.
    constructor; simpl; try assumption.
    - rewrite map_app. apply NoDup_snoc; [exact C1|].
      simpl. intros Hin. apply in_map_iff in Hin.
      destruct Hin as [r [Er Hr]]. specialize (N r Hr). simpl in N.
      rewrite Er, String.eqb_refl in N. discriminate.
    - rewrite map_app. apply NoDup_snoc; [exact C2|].
      simpl. intros Hin. apply in_map_iff in Hin.
      destruct Hin as [r [Er Hr]]. specialize (N r Hr). simpl in N.
      rewrite Er, String.eqb_refl, orb_true_r in N. discriminate.
    - rewrite map_app. apply NoDup_snoc; [exact C3 | apply next_id_fresh].
    - intros r Hr. rewrite map_app. apply in_or_app. left. now apply C5.
    - intros u Hu. apply in_app_or in Hu. destruct Hu as [Hu|[<-|[]]].
      + now apply C6.
      + simpl. rewrite hash_password_fresh_salt.
        apply hash_password_one_separator, hex_without_dollar.
    - intros u Hu. apply in_app_or in Hu. destruct Hu as [Hu|[<-|[]]].
      + now apply C7.
      + reflexivity. }
  cbv zeta. destruct (raises env 2); exact C'.
Qed.

Lemma consistent_login_user (env : Env) (db : DB)
    (username password : string) :
  consistent db ->
  consistent (state_after (login_user kdf env username password) db).
Proof.
  intros C. unfold state_after. rewrite login_user_cases.
  destruct (raises env 0); [exact C|].
  destruct (find _ (users db)) as [user|]; [|exact C].
  destruct (verify_password kdf _ _ _) as [[|]|[|e]]; try exact C.
  destruct (raises env 1); [exact C|].
  set (f := fun r => if Users.id r =? Users.id user
                     then logged_in_at (CURRENT_TIMESTAMP env) r else r).
  assert (K : forall (B : Type) (g : Users.row -> B),
            (forall r, g (logged_in_at (CURRENT_TIMESTAMP env) r) = g r) ->
            map g (map f (users db)) = map g (users db)).
  { intros B g Hg. rewrite map_map. apply map_ext. intros r. unfold f.
    destruct (Users.id r =? Users.id user); [apply Hg | reflexivity]. }
  assert (P : forall (Q : Users.row -> Prop),
            (forall r, Q r -> Q (logged_in_at (CURRENT_TIMESTAMP env) r)) ->
            (forall u, In u (users db) -> Q u) ->
            forall u, In u (map f (users db)) -> Q u).
  { intros Q HQ Hall u Hu. apply in_map_iff in Hu.
    destruct Hu as [r [<- Hr]]. unfold f.
    destruct (Users.id r =? Users.id user); auto. }
  assert (C' : consistent
                 (mkDB (map f (users db)) (user_data db)
                    (login_attempts db))).
  { destruct C as [C1 C2 C3 C4 C5 C6 C7].
    constructor; simpl; try assumption.
    - rewrite K; auto.
    - rewrite K; auto.
    - rewrite K; auto.
    - rewrite K; auto.
    - apply (P (fun u => count "$" (Users.password u) = 1%nat)); auto.
    - apply (P (fun u => Users.is_active u = 1)); auto. }
  cbv zeta. destruct (raises env 2); exact C'.
Qed.

Lemma consistent_of_reachable (db : DB) : reachable kdf db -> consistent db.
Proof.
  induction 1 as [|db db' R IH Hcall]; [apply consistent_new|].
  destruct Hcall.
  - now apply consistent_register_user.
  - now apply consistent_login_user.
  - now apply consistent_save_user_data.
  - unfold state_after.
    destruct (get_user_data_returns env user_id category db) as [rows ->].
    exact IH.
  - unfold state_after.
    destruct (get_categories_returns env user_id db) as [rows ->].
    exact IH.
Qed.

(** Every state that the methods reach from a new database satisfies the
    constraints of the schema and more: usernames, emails and ids of users
    are pairwise distinct, ids of records are pairwise distinct, every
    record belongs to an existing user, every stored password has exactly
    one separator, and every user is active. *)
Theorem reachable_consistent (db : DB) : reachable kdf db -> consistent db.
Proof. apply consistent_of_reachable. Qed.

(** In a state that the methods reached from a new database, the stored
    password of every user splits at its separator into exactly two parts,
    as every stored password was written by [hash_password]: when
    [login_user] hands it to [verify_password], the unpacking succeeds and
    the password tried is answered by a boolean. *)
Theorem stored_passwords_unpack_when_reachable (db : DB) (u : Users.row)
    (rnd : bytes) (password : string) :
  reachable kdf db ->
  In u (users db) ->
  List.length (split "$" (Users.password u)) = 2%nat
  /\ exists b : bool,
       verify_password kdf rnd (Users.password u) password = Ok b.
Proof.
  intros R Hu. apply consistent_of_reachable in R.
  pose proof (split_length "$" (Users.password u)) as L.
  rewrite (passwords_well_formed db R u Hu) in L.
  split; [exact L|]. rewrite verify_password_cases.
  destruct (split "$" (Users.password u)) as [|a [|b [|c l]]];
    try discriminate L.
  eexists. reflexivity.
Qed.

(** In a state that the methods reached from a new database, a login under
    a name of the table never answers that the user is not found: nothing
    in the code deactivates a user. *)
Theorem login_user_finds_registered_when_reachable (env : Env) (db : DB)
    (username password : string) (user : Users.row) :
  reachable kdf db ->
  raises env 0 = None ->
  In user (users db) ->
  Users.username user = username ->
  outcome (login_user kdf env username password) db
  <> Ok (false, LoginMessage MsgNotFoundOrInactive).
Proof.
  intros R H0 Hin Hu. apply consistent_of_reachable in R.
  unfold outcome. rewrite login_user_cases, H0. subst username.
  rewrite (find_some_of_unique Users.username
             (fun r => Users.is_active r =? 1) (users db) user
             (usernames_distinct db R) Hin);
    [|apply Z.eqb_eq, (users_active db R user Hin)].
  destruct (verify_password kdf _ _ _) as [[|]|[|e]]; simpl;
    try discriminate.
  destruct (raises env 1); [discriminate|].
  destruct (raises env 2); discriminate.
Qed.

End ReachableFacts.

(** ** The record store, continued *)

Lemma distinct_in (l : list string) (x : string) :
  In x (distinct l) <-> In x l.
Proof.
  induction l as [|y l IH]; simpl; [tauto|].
  rewrite filter_In, IH.
  destruct (String.eqb_spec x y) as [->|N]; simpl.
  - tauto.
  - split; [tauto|]. intros [E|H]; [now left | now right].
Qed.

Lemma distinct_nodup (l : list string) : NoDup (distinct l).
Proof.
  induction l as [|y l IH]; simpl; constructor.
  - rewrite filter_In. intros [_ H]. now rewrite String.eqb_refl in H.
  - now apply NoDup_filter.
Qed.

Lemma in_order_by {A} (le : A -> A -> bool) (l : list A) (x : A) :
  In x (order_by le l) <-> In x l.
Proof.
  split; apply Permutation_in;
    [apply order_by_perm | apply Permutation_sym, order_by_perm].
Qed.

(** For an owner id that SQLite can store, [save_user_data] returns
    [False] and writes nothing when the owner is not the id of a user (the
    foreign key) and when SQLite raises on the insertion. *)
Theorem save_user_data_refused (env : Env) (db : DB) (user_id : Z)
    (title data : string) (category : option string) :
  sqlite_integer user_id = true ->
  ((forall u, In u (users db) -> Users.id u <> user_id) ->
   save_user_data env user_id title data category db = (db, Ok false))
  /\ (forall e, raises env 0 = Some e ->
      save_user_data env user_id title data category db = (db, Ok false)).
Proof.
  intros _. rewrite save_user_data_cases. split.
  - intros Hn. destruct (raises env 0); [reflexivity|].
    destruct (existsb _ (users db)) eqn:E; [|reflexivity].
    apply existsb_exists in E. destruct E as [u [Hu Eu]].
    apply Z.eqb_eq in Eu. now destruct (Hn u Hu).
  - intros e ->. reflexivity.
Qed.

(** After a save that returned [True], the listing of the owner holds the
    new record, with the title, text and category given and the time of the
    call; so does the listing for its category when that is not the empty
    text; and its category is among the categories of the owner. *)
Theorem save_user_data_then_listed (env env' : Env) (db : DB) (user_id : Z)
    (title data category : string) :
  outcome (save_user_data env user_id title data (Some category)) db
  = Ok true ->
  raises env' 0 = None ->
  let db' :=
    state_after (save_user_data env user_id title data (Some category)) db in
  let t := (next_id (map UserData.id (user_data db)), title, data, category,
            CURRENT_TIMESTAMP env) in
  (exists rows, outcome (get_user_data env' user_id None) db' = Ok rows
                /\ In t rows)
  /\ (category <> "" ->
      exists rows,
        outcome (get_user_data env' user_id (Some category)) db' = Ok rows
        /\ In t rows)
  /\ (exists cats, outcome (get_categories env' user_id) db' = Ok cats
                   /\ In category cats).
Proof.
  intros Hs H0 db' t. subst db'. revert Hs.
  unfold outcome, state_after. rewrite save_user_data_cases.
  destruct (raises env 0); [discriminate|].
  destruct (existsb _ (users db)); [|discriminate].
  cbv zeta. destruct (raises env 1); [discriminate|]. intros _.
  cbn [fst snd].
  set (new := saved_row env db user_id title data category).
  assert (Hnew : In new (user_data db ++ [new]))
    by (apply in_or_app; right; left; reflexivity).
  assert (Ht : select_columns new = t) by reflexivity.
  split; [|split].
  - rewrite (get_user_data_answers env' user_id None _ H0).
    eexists. split; [reflexivity|].
    rewrite <- Ht. apply in_map, in_order_by, filter_In.
    split; [exact Hnew|]. unfold listed. simpl.
    now rewrite Z.eqb_refl.
  - intros Hc.
    rewrite (get_user_data_answers env' user_id (Some category) _ H0).
    eexists. split; [reflexivity|].
    rewrite <- Ht. apply in_map, in_order_by, filter_In.
    split; [exact Hnew|]. unfold listed. simpl.
    rewrite Z.eqb_refl. destruct category; [now destruct Hc|].
    apply String.eqb_refl.
  - rewrite (get_categories_answers env' user_id _ H0).
    eexists. split; [reflexivity|].
    apply in_order_by, distinct_in.
    change category with (UserData.category new).
    apply in_map, filter_In. split; [exact Hnew|].
    simpl. apply Z.eqb_refl.
Qed.

(** A save for one user leaves what the listings return for every other
    user as it was. *)
Theorem save_user_data_other_users_unchanged (env env' : Env) (db : DB)
    (user_id other : Z) (title data : string) (category : option string)
    (filter_by : option string) :
  other <> user_id ->
  let db' :=
    state_after (save_user_data env user_id title data category) db in
  outcome (get_user_data env' other filter_by) db'
  = outcome (get_user_data env' other filter_by) db
  /\ outcome (get_categories env' other) db'
     = outcome (get_categories env' other) db.
Proof.
  intros Hne db'. subst db'. unfold state_after.
  rewrite save_user_data_cases.
  assert (K : forall f new,
            UserData.user_id new = user_id ->
            filter (fun r => (UserData.user_id r =? other) && f r)
              (user_data db ++ [new])
            = filter (fun r => (UserData.user_id r =? other) && f r)
                (user_data db)).
  { intros f new Hn. rewrite filter_app. cbn [filter].
    rewrite Hn. apply Z.eqb_neq in Hne. rewrite Z.eqb_sym in Hne.
    rewrite Hne. cbn [andb]. apply app_nil_r. }
  assert (G : forall new,
            UserData.user_id new = user_id ->
            let db1 := mkDB (users db) (user_data db ++ [new])
                         (login_attempts db) in
            outcome (get_user_data env' other filter_by) db1
            = outcome (get_user_data env' other filter_by) db
            /\ outcome (get_categories env' other) db1
               = outcome (get_categories env' other) db).
  { intros new Hn db1. subst db1. unfold outcome.
    destruct (raises env' 0) as [e|] eqn:H0.
    - destruct (listings_when_store_raises env' other filter_by db e H0)
        as [-> ->].
      destruct (listings_when_store_raises env' other filter_by
                  (mkDB (users db) (user_data db ++ [new])
                     (login_attempts db)) e H0) as [-> ->].
      split; reflexivity.
    - rewrite !(get_user_data_answers env' other filter_by _ H0).
      rewrite !(get_categories_answers env' other _ H0).
      cbn [snd user_data]. unfold listed. rewrite (K _ new Hn).
      split; [reflexivity|].
      pose proof (K (fun _ => true) new Hn) as K'.
      rewrite !(filter_ext (fun r => (UserData.user_id r =? other) && true)
                  (fun r => UserData.user_id r =? other)) in K'
        by (intros; apply andb_true_r).
      now rewrite K'. }
  destruct (raises env 0); [split; reflexivity|].
  destruct (existsb _ (users db)); [|split; reflexivity].
  cbv zeta. destruct (raises env 1); cbn [fst]; apply G; reflexivity.
Qed.

(** For an owner id that SQLite can store, the categories that
    [get_categories] returns when SQLite answers are exactly the categories
    of the records of the owner, each once, in ascending order of their
    texts. *)
Theorem get_categories_sorted_distinct (env : Env) (db : DB) (user_id : Z) :
  sqlite_integer user_id = true ->
  raises env 0 = None ->
  exists cats,
    get_categories env user_id db = (db, Ok cats)
    /\ NoDup cats
    /\ Sorted (fun a b => String.leb a b = true) cats
    /\ (forall c, In c cats <->
                  exists r, In r (user_data db)
                            /\ UserData.user_id r = user_id
                            /\ UserData.category r = c).
Proof.
  intros _ H0. rewrite (get_categories_answers env user_id db H0).
  eexists. split; [reflexivity|]. split; [|split].
  - eapply Permutation_NoDup;
      [apply Permutation_sym, order_by_perm | apply distinct_nodup].
  - apply order_by_sorted, String.leb_total.
  - intros c. rewrite in_order_by, distinct_in, in_map_iff. split.
    + intros [r [Ec Hr]]. apply filter_In in Hr. destruct Hr as [Hr Eu].
      apply Z.eqb_eq in Eu. eauto.
    + intros [r [Hr [Eu Ec]]]. exists r. split; [exact Ec|].
      apply filter_In. split; [exact Hr|]. now apply Z.eqb_eq.
Qed.

(** Every category that [get_categories] offers, the empty text apart,
    selects a listing that is not empty and whose records all have that
    category. *)
Theorem get_categories_select_records (env : Env) (db : DB) (user_id : Z)
    (cats : list string) (c : string) :
  raises env 0 = None ->
  outcome (get_categories env user_id) db = Ok cats ->
  In c cats ->
  c <> "" ->
  exists rows,
    outcome (get_user_data env user_id (Some c)) db = Ok rows
    /\ rows <> []
    /\ Forall (fun t => tuple_category t = c) rows.
Proof.
  intros H0 Hc Hin Hne. unfold outcome in *.
  rewrite (get_categories_answers env user_id db H0) in Hc.
  injection Hc as <-.
  rewrite in_order_by, distinct_in, in_map_iff in Hin.
  destruct Hin as [r [Ec Hr]]. apply filter_In in Hr.
  destruct Hr as [Hr Eu].
  rewrite (get_user_data_answers env user_id (Some c) db H0).
  eexists. split; [reflexivity|].
  assert (L : forall x, listed user_id (Some c) x = true ->
                        UserData.category x = c).
  { intros x Hx. unfold listed in Hx. apply andb_prop in Hx.
    destruct Hx as [_ Hx]. destruct c; [now destruct Hne|].
    now apply String.eqb_eq. }
  split.
  - intros E.
    assert (X : In (select_columns r)
                  (map select_columns
                     (order_by created_at_desc
                        (filter (listed user_id (Some c)) (user_data db))))).
    { apply in_map, in_order_by, filter_In. split; [exact Hr|].
      unfold listed. rewrite Eu. simpl. destruct c; [now destruct Hne|].
      now apply String.eqb_eq. }
    rewrite E in X. destruct X.
  - apply Forall_forall. intros t Ht. apply in_map_iff in Ht.
    destruct Ht as [x [<- Hx]]. apply in_order_by, filter_In in Hx.
    destruct Hx as [_ Hx]. now apply L.
Qed.

(** * Properties of the validators *)

(** ** Matching by derivatives finds exactly the texts of the pattern *)

Section RegexFacts.

Import Re.

Lemma append_nil_inv (s1 s2 : string) :
  (s1 ++ s2)%string = EmptyString -> s1 = EmptyString /\ s2 = EmptyString.
Proof. destruct s1; simpl; [auto | discriminate]. Qed.

Lemma append_nil_r (s : string) : (s ++ "")%string = s.
Proof. induction s as [|c s IH]; simpl; [reflexivity | now rewrite IH]. Qed.

Lemma append_assoc (a b c : string) :
  ((a ++ b) ++ c)%string = (a ++ (b ++ c))%string.
Proof. induction a as [|x a IH]; simpl; [reflexivity | now rewrite IH]. Qed.

Lemma nullable_lang (r : regex) : nullable r = true <-> lang r EmptyString.
Proof.
  split.
  - induction r; simpl; intros H; try discriminate.
    + constructor.
    + apply andb_prop in H. destruct H as [H1 H2].
      change EmptyString with (EmptyString ++ EmptyString)%string.
      constructor; auto.
    + apply orb_prop in H. destruct H as [H|H];
        [apply lang_alt_l | apply lang_alt_r]; auto.
    + constructor.
  - intros H. remember EmptyString as s eqn:E.
    induction H; simpl; try discriminate; try reflexivity.
    + apply append_nil_inv in E. destruct E as [-> ->].
      now rewrite IHlang1, IHlang2.
    + now rewrite IHlang.
    + rewrite IHlang by assumption. apply orb_true_r.
Qed.

Lemma lang_star_cons_inv (r : regex) (c : ascii) (s : string) :
  lang (Star r) (String c s) ->
  exists s1 s2, s = (s1 ++ s2)%string
                /\ lang r (String c s1) /\ lang (Star r) s2.
Proof.
  intros H. remember (Star r) as r' eqn:Er.
  remember (String c s) as t eqn:Et. revert s Et.
  induction H; intros t Et; try discriminate.
  injection Er as ->. destruct s1 as [|d s1]; simpl in Et.
  - subst s2. now apply IHlang2.
  - injection Et as -> <-. eauto.
Qed.

Lemma deriv_sound (c : ascii) (r : regex) (s : string) :
  lang (deriv c r) s -> lang r (String c s).
Proof.
  revert s. induction r; simpl; intros s H.
  - inversion H.
  - inversion H.
  - destruct (f c) eqn:E; inversion H; subst. now constructor.
  - destruct (nullable r1) eqn:N.
    + inversion H as [| |? ? ? ? H1 H2| ? ? ? H1 | ? ? ? H1 | |]; subst.
      * inversion H1; subst.
        change (String c (?a ++ ?b))%string
          with (String c a ++ b)%string.
        constructor; auto.
      * change (String c s) with (EmptyString ++ String c s)%string.
        constructor; [now apply nullable_lang | auto].
    + inversion H; subst.
      change (String c (?a ++ ?b))%string with (String c a ++ b)%string.
      constructor; auto.
  - inversion H; subst; [apply lang_alt_l | apply lang_alt_r]; auto.
  - inversion H; subst.
    change (String c (?a ++ ?b))%string with (String c a ++ b)%string.
    constructor; auto.
Qed.

Lemma deriv_complete (c : ascii) (r : regex) (s : string) :
  lang r (String c s) -> lang (deriv c r) s.
Proof.
  revert s. induction r; simpl; intros s H.
  - inversion H.
  - inversion H.
  - inversion H as [|? ? Hf| | | | |]; subst. rewrite Hf. constructor.
  - remember (String c s) as t eqn:Et.
    inversion H as [| |? ? s1 s2 H1 H2| | | |]; subst.
    destruct s1 as [|d s1]; simpl in *.
    + subst s2. apply nullable_lang in H1. rewrite H1.
      apply lang_alt_r. auto.
    + match goal with E : String _ _ = String _ _ |- _ =>
        injection E as -> <- end.
      destruct (nullable r1); [apply lang_alt_l|]; constructor; auto.
  - inversion H; subst; [apply lang_alt_l | apply lang_alt_r]; auto.
  - apply lang_star_cons_inv in H. destruct H as [s1 [s2 [-> [H1 H2]]]].
    constructor; auto.
Qed.

Lemma matches_lang (r : regex) (s : string) :
  matches r s = true <-> lang r s.
Proof.
  revert r. induction s as [|c s IH]; intros r; simpl.
  - apply nullable_lang.
  - rewrite IH. split; [apply deriv_sound | apply deriv_complete].
Qed.

(** The texts of a repeated character class. *)
Lemma lang_star_class (f : ascii -> bool) (s : string) :
  lang (Star (Class f)) s <-> all_chars f s = true.
Proof.
  split.
  - intros H. remember (Star (Class f)) as r eqn:E.
    induction H; try discriminate; [reflexivity|].
    injection E as ->. inversion H as [|? ? Hf| | | | |]; subst. simpl.
    rewrite Hf. now apply IHlang2.
  - induction s as [|c s IH]; simpl; intros H; [constructor|].
    apply andb_prop in H. destruct H as [Hc Hs].
    change (String c s) with (String c EmptyString ++ s)%string.
    constructor; [now constructor | auto].
Qed.

Lemma lang_plus_class (f : ascii -> bool) (s : string) :
  lang (Plus (Class f)) s <-> s <> EmptyString /\ all_chars f s = true.
Proof.
  unfold Plus. split.
  - intros H. inversion H as [| |? ? s1 s2 H1 H2| | | |]; subst.
    inversion H1 as [|? ? Hf| | | | |]; subst.
    apply lang_star_class in H2. simpl.
    split; [discriminate|]. now rewrite Hf.
  - intros [Hn H]. destruct s as [|c s]; [now destruct Hn|].
    simpl in H. apply andb_prop in H. destruct H as [Hc Hs].
    change (String c s) with (String c EmptyString ++ s)%string.
    constructor; [now constructor | now apply lang_star_class].
Qed.

Lemma lang_at_least2_class (f : ascii -> bool) (s : string) :
  lang (AtLeast2 (Class f)) s <->
  (2 <= String.length s)%nat /\ all_chars f s = true.
Proof.
  unfold AtLeast2. split.
  - intros H. inversion H as [| |? ? s1 s2 H1 H2| | | |]; subst.
    inversion H1 as [|? ? Hf| | | | |]; subst.
    inversion H2 as [| |? ? s3 s4 H3 H4| | | |]; subst.
    inversion H3 as [|? ? Hg| | | | |]; subst.
    apply lang_star_class in H4. simpl.
    split; [lia|]. now rewrite Hf, Hg.
  - intros [Hl H]. destruct s as [|c [|d s]]; simpl in Hl; try lia.
    simpl in H. apply andb_prop in H. destruct H as [Hc H].
    apply andb_prop in H. destruct H as [Hd Hs].
    change (String c (String d s))
      with (String c EmptyString ++ (String d EmptyString ++ s))%string.
    constructor; [now constructor|].
    constructor; [now constructor | now apply lang_star_class].
Qed.

Lemma lang_chr (c : ascii) (s : string) :
  lang (Chr c) s <-> s = String c EmptyString.
Proof.
  unfold Chr. split.
  - intros H. inversion H as [|? ? Hf| | | | |]; subst.
    apply Ascii.eqb_eq in Hf. now subst.
  - intros ->. constructor. apply Ascii.eqb_refl.
Qed.

Lemma without_final_newline_append (w : string) :
  without_final_newline (w ++ String "010" EmptyString) = Some w.
Proof.
  induction w as [|x w IH]; [reflexivity|].
  change (String x w ++ String "010" EmptyString)%string
    with (String x (w ++ String "010" EmptyString)).
  destruct w as [|y w]; [reflexivity|].
  change (String y w ++ String "010" EmptyString)%string
    with (String y (w ++ String "010" EmptyString)) in *.
  cbn [without_final_newline] in *. now rewrite IH.
Qed.

Lemma without_final_newline_some (s w : string) :
  without_final_newline s = Some w ->
  s = (w ++ String "010" EmptyString)%string.
Proof.
  revert w. induction s as [|c s IH]; intros w; [discriminate|].
  destruct s as [|d s].
  - simpl. destruct (Ascii.eqb_spec c "010") as [->|N]; [|discriminate].
    intros E. injection E as <-. reflexivity.
  - cbn [without_final_newline] in *.
    destruct (match s with
              | EmptyString => if Ascii.eqb d "010" then Some EmptyString
                               else None
              | String _ _ =>
                  match without_final_newline s with
                  | Some w0 => Some (String d w0)
                  | None => None
                  end
              end) as [w'|]; [|discriminate].
    intros E. injection E as <-. simpl. f_equal. now apply IH.
Qed.

Lemma without_final_newline_spec (s w : string) :
  without_final_newline s = Some w <->
  s = (w ++ String "010" EmptyString)%string.
Proof.
  split; [apply without_final_newline_some|].
  intros ->. apply without_final_newline_append.
Qed.

(** What [match_anchored] accepts. *)
Lemma match_anchored_lang (r : regex) (s : string) :
  match_anchored r s = true <->
  lang r s \/ exists w, s = (w ++ String "010" EmptyString)%string
                        /\ lang r w.
Proof.
  unfold match_anchored. rewrite orb_true_iff, matches_lang. split.
  - intros [H|H]; [now left|]. right.
    destruct (without_final_newline s) as [w|] eqn:W; [|discriminate].
    exists w. split; [now apply without_final_newline_spec|].
    now apply matches_lang.
  - intros [H|[w [E H]]]; [now left|]. right.
    apply without_final_newline_spec in E. rewrite E.
    now apply matches_lang.
Qed.

End RegexFacts.

(** ** Texts and character classes *)

Lemma all_chars_impl (f g : ascii -> bool) (s : string) :
  (forall c, f c = true -> g c = true) ->
  all_chars f s = true -> all_chars g s = true.
Proof.
  intros Hfg. induction s as [|c s IH]; simpl; [reflexivity|].
  intros H. apply andb_prop in H. destruct H as [Hc Hs].
  now rewrite (Hfg c Hc), IH.
Qed.

Lemma all_chars_app (f : ascii -> bool) (a b : string) :
  all_chars f (a ++ b) = all_chars f a && all_chars f b.
Proof.
  induction a as [|c a IH]; simpl; [reflexivity|].
  now rewrite IH, andb_assoc.
Qed.

Lemma length_append (a b : string) :
  String.length (a ++ b) = (String.length a + String.length b)%nat.
Proof. induction a as [|c a IH]; simpl; [reflexivity | now rewrite IH]. Qed.

Lemma len_ascii (s : string) : is_ascii s = true -> len s = String.length s.
Proof.
  unfold is_ascii. induction s as [|c s IH]; simpl; [reflexivity|].
  intros H. apply andb_prop in H. destruct H as [Hc Hs].
  rewrite (IH Hs).
  replace (is_continuation_byte c) with false; [reflexivity|].
  revert Hc. destruct c as [[] [] [] [] [] [] [] []]; vm_compute;
    congruence.
Qed.

Ltac by_character c :=
  destruct c as [[] [] [] [] [] [] [] []]; vm_compute; congruence.

Section ValidatorFacts.

Import Re Validator.

Lemma word_char_ascii (c : ascii) :
  word_char c = true -> is_ascii_char c = true.
Proof. by_character c. Qed.

Lemma newline_ascii : is_ascii (String "010" EmptyString) = true.
Proof. reflexivity. Qed.

Lemma validate_username_cases (username : string) :
  validate_username username = (true, NoText) <->
  (3 <= String.length username)%nat
  /\ exists w,
       (username = w \/ username = w ++ String "010" EmptyString)
       /\ w <> EmptyString
       /\ all_chars word_char w = true.
Proof.
  assert (A : forall w,
            all_chars word_char w = true ->
            (username = w \/ username = w ++ String "010" EmptyString) ->
            len username = String.length username).
  { intros w Hw Hu. apply len_ascii. unfold is_ascii.
    pose proof (all_chars_impl _ _ w word_char_ascii Hw) as Hw'.
    destruct Hu as [->| ->]; [exact Hw'|].
    rewrite all_chars_app, Hw'. reflexivity. }
  assert (B : match_anchored username_pattern username = true <->
              exists w,
                (username = w \/ username = w ++ String "010" EmptyString)
                /\ w <> EmptyString /\ all_chars word_char w = true).
  { rewrite match_anchored_lang. unfold username_pattern.
    rewrite lang_plus_class. split.
    - intros [[Hn Hw]|[w [E Hw]]].
      + exists username. auto.
      + apply lang_plus_class in Hw. exists w. tauto.
    - intros [w [[->| ->] [Hn Hw]]]; [now left|].
      right. exists w. split; [reflexivity|]. now apply lang_plus_class. }
  unfold validate_username. split.
  - destruct (len username <? 3)%nat eqn:L; [discriminate|].
    destruct (match_anchored username_pattern username) eqn:Ma;
      [|discriminate].
    intros _. destruct (proj1 B eq_refl) as [w [Hu [Hn Hw]]].
    split; [|eauto]. rewrite <- (A w Hw Hu).
    apply Nat.ltb_ge in L. exact L.
  - intros [Hl [w [Hu [Hn Hw]]]].
    rewrite (A w Hw Hu).
    replace (String.length username <? 3)%nat with false
      by (symmetry; apply Nat.ltb_ge; exact Hl).
    replace (match_anchored username_pattern username) with true
      by (symmetry; apply B; eauto).
    reflexivity.
Qed.

(** What [validate_username] accepts: the texts of at least three
    characters that consist of letters, digits and underscores, the last
    character being allowed to be a newline after them. *)
Theorem validate_username_accepts (username : string) :
  validate_username username = (true, NoText) <->
  (3 <= String.length username)%nat
  /\ exists w,
       (username = w \/ username = w ++ String "010" EmptyString)
       /\ w <> EmptyString
       /\ all_chars word_char w = true.
Proof. apply validate_username_cases. Qed.

(** The pattern of [validate_username] ends in [$], which also matches
    before a final newline: a name of letters, digits and underscores
    followed by a newline is accepted, and with the newline counted two
    such characters are enough. *)
Theorem validate_username_accepts_final_newline (w : string) :
  all_chars word_char w = true ->
  (2 <= String.length w)%nat ->
  validate_username (w ++ String "010" EmptyString) = (true, NoText).
Proof.
  intros Hw Hl. apply validate_username_cases. split; [|exists w].
  - rewrite length_append. simpl. lia.
  - split; [now right|]. split; [|exact Hw].
    destruct w; [simpl in Hl; lia | discriminate].
Qed.

Variables unicode_isdigit unicode_isupper : N -> bool.

(** On a text of ASCII characters the Unicode tables are not consulted. *)
Lemma chars_ascii (f : N -> bool) (g : ascii -> bool) (s : string) :
  (forall c, is_ascii_char c = true -> f (N_of_ascii c) = g c) ->
  is_ascii s = true ->
  existsb f (chars s) = any_char g s.
Proof.
  intros Hfg. unfold is_ascii.
  induction s as [|c s IH]; [reflexivity|].
  cbn [all_chars any_char chars]. intros H. apply andb_prop in H.
  destruct H as [Hc Hs]. unfold is_ascii_char in Hc. rewrite Hc.
  cbn [existsb]. now rewrite (Hfg c Hc), (IH Hs).
Qed.

Lemma isdigit_ascii (c : ascii) :
  is_ascii_char c = true ->
  isdigit unicode_isdigit (N_of_ascii c) = ascii_isdigit c.
Proof.
  unfold isdigit, is_ascii_char. intros ->. reflexivity.
Qed.

Lemma isupper_ascii (c : ascii) :
  is_ascii_char c = true ->
  isupper unicode_isupper (N_of_ascii c) = ascii_isupper c.
Proof.
  unfold isupper, is_ascii_char. intros ->. reflexivity.
Qed.

(** For a password of ASCII characters, [validate_password] accepts
    exactly when it has at least six characters, a digit and a capital
    letter; it names the first rule that fails, in that order. *)
Theorem validate_password_ascii (password : string) :
  is_ascii password = true ->
  let validated :=
    validate_password unicode_isdigit unicode_isupper password in
  (validated = (true, NoText) <->
   (6 <= String.length password)%nat
   /\ any_char ascii_isdigit password = true
   /\ any_char ascii_isupper password = true)
  /\ (validated = (false, PasswordTooShort) <->
      (String.length password < 6)%nat)
  /\ (validated = (false, PasswordWithoutDigit) <->
      (6 <= String.length password)%nat
      /\ any_char ascii_isdigit password = false)
  /\ (validated = (false, PasswordWithoutUppercase) <->
      (6 <= String.length password)%nat
      /\ any_char ascii_isdigit password = true
      /\ any_char ascii_isupper password = false).
Proof.
  intros Ha validated. subst validated.
  unfold validate_password. rewrite (len_ascii password Ha).
  rewrite (chars_ascii _ ascii_isdigit password isdigit_ascii Ha).
  rewrite (chars_ascii _ ascii_isupper password isupper_ascii Ha).
  destruct (String.length password <? 6)%nat eqn:L;
    [apply Nat.ltb_lt in L | apply Nat.ltb_ge in L];
    destruct (any_char ascii_isdigit password);
    destruct (any_char ascii_isupper password); simpl;
    repeat split; intros; try discriminate; try lia;
    repeat match goal with H : _ /\ _ |- _ => destruct H end;
    try discriminate; try lia.
Qed.

End ValidatorFacts.

Section EmailFacts.

Import Re Validator.

Lemma lang_cat_iff (r1 r2 : regex) (s : string) :
  lang (Cat r1 r2) s <->
  exists s1 s2, s = (s1 ++ s2)%string /\ lang r1 s1 /\ lang r2 s2.
Proof.
  split.
  - intros H. inversion H as [| |? ? s1 s2 H1 H2| | | |]; subst. eauto.
  - intros [s1 [s2 [-> [H1 H2]]]]. now constructor.
Qed.

Lemma lang_email_pattern (s : string) :
  lang email_pattern s <-> well_formed_address s.
Proof.
  unfold email_pattern, well_formed_address. split.
  - intros H.
    apply lang_cat_iff in H. destruct H as [l [s1 [-> [Hl H]]]].
    apply lang_cat_iff in H. destruct H as [a [s2 [-> [Ha H]]]].
    apply lang_cat_iff in H. destruct H as [d [s3 [-> [Hd H]]]].
    apply lang_cat_iff in H. destruct H as [b [t [-> [Hb Ht]]]].
    apply lang_chr in Ha, Hb. subst a b.
    apply lang_plus_class in Hl, Hd. apply lang_at_least2_class in Ht.
    exists l, d, t. tauto.
  - intros [l [d [t [-> [Hl [Hl' [Hd [Hd' [Ht Ht']]]]]]]]].
    constructor; [now apply lang_plus_class|].
    change ("@" ++ d ++ "." ++ t)%string
      with (String "@" EmptyString ++ (d ++ "." ++ t))%string.
    constructor; [now apply lang_chr|].
    constructor; [now apply lang_plus_class|].
    change ("." ++ t)%string with (String "." EmptyString ++ t)%string.
    constructor; [now apply lang_chr | now apply lang_at_least2_class].
Qed.

Lemma all_chars_count_zero (f : ascii -> bool) (c : ascii) (s : string) :
  f c = false -> all_chars f s = true -> count c s = O.
Proof.
  intros Hc. induction s as [|d s IH]; simpl; [reflexivity|].
  intros H. apply andb_prop in H. destruct H as [Hd Hs].
  destruct (Ascii.eqb_spec d c) as [->|_]; [congruence | auto].
Qed.

(** What [validate_email] accepts: a non-empty local part of letters,
    digits and [._%+-], an [@], a non-empty domain of letters, digits,
    dots and hyphens, a dot and at least two letters; a newline may
    follow. *)
Theorem validate_email_accepts (email : string) :
  validate_email email = (true, NoText) <->
  well_formed_address email
  \/ exists w, email = w ++ String "010" EmptyString
               /\ well_formed_address w.
Proof.
  unfold validate_email.
  pose proof (match_anchored_lang email_pattern email) as B.
  destruct (match_anchored email_pattern email); simpl.
  - split; [intros _ | reflexivity].
    destruct (proj1 B eq_refl) as [H|[w [E H]]].
    + left. now apply lang_email_pattern.
    + right. exists w. split; [exact E | now apply lang_email_pattern].
  - split; [discriminate|]. intros H. exfalso.
    assert (X : false = true); [|discriminate].
    apply B. destruct H as [H|[w [E H]]].
    + left. now apply lang_email_pattern.
    + right. exists w. split; [exact E | now apply lang_email_pattern].
Qed.

(** An address that [validate_email] accepts has exactly one [@]; so an
    address with none or with two is refused. *)
Theorem validate_email_one_at_sign (email : string) :
  validate_email email = (true, NoText) -> count "@" email = 1%nat.
Proof.
  intros H.
  assert (W : forall s, well_formed_address s -> count "@" s = 1%nat).
  { intros s [l [d [t [-> [_ [Hl [_ [Hd [_ Ht]]]]]]]]].
    rewrite count_app.
    rewrite (all_chars_count_zero email_local_char "@" l eq_refl Hl).
    change ("@" ++ d ++ "." ++ t)%string
      with (String "@" (d ++ String "." t)).
    cbn [count]. rewrite Ascii.eqb_refl, count_app.
    rewrite (all_chars_count_zero email_domain_char "@" d eq_refl Hd).
    cbn [count]. change (Ascii.eqb "." "@") with false. cbn iota.
    now rewrite (all_chars_count_zero letter "@" t eq_refl Ht). }
  unfold validate_email in H.
  pose proof (match_anchored_lang email_pattern email) as B.
  destruct (match_anchored email_pattern email); [|discriminate].
  destruct (proj1 B eq_refl) as [L|[w [-> L]]];
    apply lang_email_pattern, W in L; [exact L|].
  rewrite count_app, L. reflexivity.
Qed.

End EmailFacts.

(** ** Generated passwords *)

Section GeneratedPasswords.

Import Validator.

Variables unicode_isdigit unicode_isupper : N -> bool.

Lemma length_string_of_list_ascii (l : list ascii) :
  String.length (string_of_list_ascii l) = List.length l.
Proof. induction l as [|c l IH]; simpl; [reflexivity | now rewrite IH]. Qed.

Lemma all_chars_string_of_list (f : ascii -> bool) (l : list ascii) :
  all_chars f (string_of_list_ascii l) = forallb f l.
Proof. induction l as [|c l IH]; simpl; [reflexivity | now rewrite IH]. Qed.

Lemma any_char_string_of_list (f : ascii -> bool) (l : list ascii) :
  any_char f (string_of_list_ascii l) = existsb f l.
Proof. induction l as [|c l IH]; simpl; [reflexivity | now rewrite IH]. Qed.

Lemma choice_is_character (below : nat) :
  (below < 94)%nat -> is_character (choice below) = true.
Proof.
  intros H.
  assert (F : forallb (fun k => is_character (choice k)) (seq 0 94) = true)
    by (vm_compute; reflexivity).
  rewrite forallb_forall in F. apply F, in_seq. lia.
Qed.

Lemma choice_letter_not_digit (below : nat) :
  (below < 52)%nat -> ascii_isdigit (choice below) = false.
Proof.
  intros H.
  assert (F : forallb (fun k => negb (ascii_isdigit (choice k))) (seq 0 52)
              = true)
    by (vm_compute; reflexivity).
  rewrite forallb_forall in F.
  apply negb_true_iff, F, in_seq. lia.
Qed.

Lemma is_character_ascii (c : ascii) :
  is_character c = true -> is_ascii_char c = true.
Proof. by_character c. Qed.

(** A generated password has the length asked for (none when the length is
    negative, 12 when it is left out), consists of characters of
    [characters], and when at least six characters are asked for it is not
    refused by [validate_password] for being too short. *)
Theorem generate_strong_password_shape (randbelow : nat -> nat)
    (length : option Z) :
  (forall i, (randbelow i < 94)%nat) ->
  let n := match length with
           | None => 12
           | Some n => n
           end in
  let password := generate_strong_password randbelow length in
  String.length password = Z.to_nat n
  /\ all_chars is_character password = true
  /\ (6 <= n ->
      validate_password unicode_isdigit unicode_isupper password
      <> (false, PasswordTooShort)).
Proof.
  intros Hr n password.
  assert (L : String.length password = Z.to_nat n).
  { unfold password, generate_strong_password.
    now rewrite length_string_of_list_ascii, length_map, length_seq. }
  assert (C : all_chars is_character password = true).
  { unfold password, generate_strong_password.
    rewrite all_chars_string_of_list. apply forallb_forall.
    intros c Hc. apply in_map_iff in Hc. destruct Hc as [i [<- _]].
    apply choice_is_character, Hr. }
  split; [exact L|]. split; [exact C|].
  intros Hn. unfold validate_password.
  rewrite (len_ascii password (all_chars_impl _ _ _ is_character_ascii C)).
  rewrite L.
  replace (Z.to_nat n <? 6)%nat with false
    by (symmetry; apply Nat.ltb_ge; lia).
  destruct (existsb _ (chars password));
    destruct (existsb _ (chars password)); discriminate.
Qed.

(** A generated password is not always one that [validate_password]
    accepts: when every draw falls on the same letter, whatever the length,
    the password has no digit and is refused. *)
Theorem generate_strong_password_may_be_refused (below : nat)
    (length : option Z) :
  (below < 52)%nat ->
  fst (validate_password unicode_isdigit unicode_isupper
         (generate_strong_password (fun _ => below) length)) = false.
Proof.
  intros H. unfold validate_password.
  destruct (len _ <? 6)%nat; [reflexivity|].
  assert (A : is_ascii (generate_strong_password (fun _ => below) length)
              = true).
  { unfold is_ascii, generate_strong_password.
    rewrite all_chars_string_of_list. apply forallb_forall.
    intros c Hc. apply in_map_iff in Hc. destruct Hc as [i [<- _]].
    apply is_character_ascii, choice_is_character. lia. }
  rewrite (chars_ascii _ ascii_isdigit _ (isdigit_ascii unicode_isdigit) A).
  replace (any_char ascii_isdigit
             (generate_strong_password (fun _ => below) length))
    with false; [reflexivity|].
  unfold generate_strong_password.
  rewrite any_char_string_of_list. symmetry.
  apply not_true_is_false. intros E. apply existsb_exists in E.
  destruct E as [c [Hc Ec]]. apply in_map_iff in Hc.
  destruct Hc as [i [<- _]].
  now rewrite (choice_letter_not_digit below H) in Ec.
Qed.

End GeneratedPasswords.

(** * Properties of the handlers *)

Lemma db_eta (d : DB) : mkDB (users d) (user_data d) (login_attempts d) = d.
Proof. now destruct d. Qed.

Section HandlerFacts.

Import ModernApp.

Variable kdf : bytes -> bytes -> N -> bytes.
Variable strip : string -> string.
Variables udigit uupper : N -> bool.

(** What a call of [login_user] does to the tables and what it returns
    with [True]. *)
Lemma login_user_effect (env : Env) (d : DB) (username password : string) :
  exists g : Users.row -> Users.row,
    (forall r, Users.id (g r) = Users.id r
               /\ Users.username (g r) = Users.username r)
    /\ state_after (login_user kdf env username password) d
       = mkDB (map g (users d)) (user_data d) (login_attempts d)
    /\ (forall v,
          outcome (login_user kdf env username password) d = Ok (true, v) ->
          exists user, In user (users d)
                       /\ v = LoginUser (Users.id user) (Users.username user)).
Proof.
  unfold state_after, outcome. rewrite login_user_cases.
  assert (Same : forall o : result (bool * login_value),
            (forall v, o <> Ok (true, v)) ->
            exists g : Users.row -> Users.row,
              (forall r, Users.id (g r) = Users.id r
                         /\ Users.username (g r) = Users.username r)
              /\ fst (d, o)
                 = mkDB (map g (users d)) (user_data d) (login_attempts d)
              /\ (forall v, snd (d, o) = Ok (true, v) ->
                    exists user,
                      In user (users d)
                      /\ v = LoginUser (Users.id user)
                               (Users.username user))).
  { intros o Ho. exists (fun r => r). split; [auto|]. split.
    - simpl. now rewrite map_id, db_eta.
    - intros v E. now destruct (Ho v). }
  destruct (raises env 0); [apply Same; discriminate|].
  destruct (find _ (users d)) as [user|] eqn:F; [|apply Same; discriminate].
  destruct (verify_password kdf _ _ _) as [[|]|[|e]];
    try (apply Same; discriminate).
  destruct (raises env 1); [apply Same; discriminate|].
  exists (fun r => if Users.id r =? Users.id user
                   then logged_in_at (CURRENT_TIMESTAMP env) r else r).
  split.
  { intros r. destruct (Users.id r =? Users.id user); auto. }
  cbv zeta. destruct (raises env 2); (split; [reflexivity|]).
  - intros v E. discriminate.
  - intros v E. simpl in E. injection E as <-.
    apply find_some in F. exists user. tauto.
Qed.

Lemma login_user_returns_when_consistent (env : Env) (d : DB)
    (username password : string) :
  consistent d ->
  exists r, outcome (login_user kdf env username password) d = Ok r.
Proof.
  intros R. unfold outcome. rewrite login_user_cases.
  destruct (raises env 0); [simpl; eauto|].
  destruct (find _ (users d)) as [user|] eqn:F; [|simpl; eauto].
  apply find_some in F. destruct F as [Hin _].
  pose proof (passwords_well_formed d R user Hin) as W.
  rewrite verify_password_cases.
  pose proof (split_length "$" (Users.password user)) as L. rewrite W in L.
  destruct (split "$" (Users.password user)) as [|a [|b [|c l]]];
    try discriminate.
  destruct (String.eqb _ _); [|simpl; eauto].
  destruct (raises env 1); [simpl; eauto|].
  cbv zeta. destruct (raises env 2); simpl; eauto.
Qed.

Lemma sound_start : sound (mk empty_db None).
Proof.
  constructor; simpl.
  - apply consistent_new.
  - discriminate.
  - intros r [].
  - intros r [].
Qed.

Lemma sound_login (env : Env) (u p : string) (self : app) :
  sound self -> sound (fst (login kdf strip env u p self)).
Proof.
  intros S. unfold login.
  destruct (blank (strip u) || blank p); [exact S|].
  destruct (login_user_effect env (db self) (strip u) p) as [g [Hg [Hs Ho]]].
  pose proof (consistent_login_user kdf env (db self) (strip u) p
                (sound_db self S)) as C.
  unfold state_after, outcome in *.
  destruct (login_user kdf env (strip u) p (db self)) as [d' o].
  simpl in Hs, Ho, C. subst d'.
  assert (Keep : forall v,
            (exists id name,
               v = LoginUser id name
               /\ exists r, In r (users (db self))
                            /\ Users.id r = id /\ Users.username r = name) ->
            exists id name,
              v = LoginUser id name
              /\ exists r, In r (map g (users (db self)))
                           /\ Users.id r = id /\ Users.username r = name).
  { intros v [id [name [Ev [r [Hr [Ei En]]]]]]. exists id, name.
    split; [exact Ev|]. exists (g r). split; [now apply in_map|].
    destruct (Hg r) as [-> ->]. auto. }
  assert (Names : forall r, In r (map g (users (db self))) ->
            Validator.validate_username (Users.username r)
            = (true, Validator.NoText)).
  { intros r Hr. apply in_map_iff in Hr. destruct Hr as [r0 [<- Hr0]].
    destruct (Hg r0) as [_ ->]. now apply (sound_usernames self S). }
  assert (Old : forall cu,
            (forall v, cu = Some v ->
               exists id name,
                 v = LoginUser id name
                 /\ exists r, In r (map g (users (db self)))
                              /\ Users.id r = id /\ Users.username r = name) ->
            sound (mk (mkDB (map g (users (db self))) (user_data (db self))
                         (login_attempts (db self))) cu)).
  { intros cu Hcu. constructor; simpl; auto.
    apply (sound_records self S). }
  assert (Cur : forall v, current_user self = Some v ->
            exists id name,
              v = LoginUser id name
              /\ exists r, In r (map g (users (db self)))
                           /\ Users.id r = id /\ Users.username r = name).
  { intros v Ev. apply Keep. now apply (sound_current_user self S). }
  destruct o as [[success result]|e]; simpl.
  - destruct success; simpl; apply Old; [|exact Cur].
    intros v Ev. injection Ev as <-. apply Keep.
    destruct (Ho result eq_refl) as [user [Hin ->]].
    exists (Users.id user), (Users.username user). eauto.
  - apply Old, Cur.
Qed.

Lemma sound_register (env : Env) (u p c e : string) (self : app) :
  sound self -> sound (fst (register kdf strip udigit uupper env u p c e self)).
Proof.
  intros S. unfold register.
  destruct (Validator.validate_username (strip u)) as [valid1 msg1] eqn:V1.
  destruct valid1; [|exact S]. simpl.
  destruct (Validator.validate_password udigit uupper p) as [valid2 msg2].
  destruct valid2; [|exact S]. simpl.
  destruct (String.eqb p c); [|exact S]. simpl.
  destruct (if blank (strip e) then (true, Validator.NoText)
            else Validator.validate_email (strip e)) as [valid3 msg3].
  destruct valid3; [|exact S]. simpl.
  pose proof (consistent_register_user kdf env (db self) (strip u) p
                (strip e) (sound_db self S)) as C.
  pose proof (register_user_cases kdf env (db self) (strip u) p (strip e))
    as E.
  unfold state_after in C.
  destruct (register_user kdf env (strip u) p (strip e) (db self))
    as [d' o].
  simpl in C.
  assert (D : d' = db self
              \/ d' = mkDB (users (db self) ++
                              [registered_row kdf env (db self) (strip u) p
                                 (strip e)])
                        (user_data (db self)) (login_attempts (db self))).
  { destruct (raises env 0); [left; congruence|].
    destruct (find _ (users (db self))); [left; congruence|].
    destruct (raises env 1); [left; congruence|].
    cbv zeta in E. destruct (raises env 2); right; congruence. }
  assert (S' : sound (mk d' (current_user self))).
  { destruct D as [->| ->].
    - destruct self. exact S.
    - constructor; simpl.
      + exact C.
      + intros v Ev.
        destruct (sound_current_user self S v Ev)
          as [id [name [-> [r [Hr Hrr]]]]].
        exists id, name. split; [reflexivity|]. exists r.
        split; [apply in_or_app; now left | exact Hrr].
      + intros r Hr. apply in_app_or in Hr. destruct Hr as [Hr|[<-|[]]].
        * now apply (sound_usernames self S).
        * simpl. rewrite V1. f_equal.
          unfold Validator.validate_username in V1.
          destruct (len (strip u) <? 3)%nat; [discriminate|].
          destruct (negb _); [discriminate|]. now injection V1.
      + apply (sound_records self S). }
  destruct o as [[success message]|x]; exact S'.
Qed.

End HandlerFacts.

Section HandlerTheorems.

Import ModernApp.

Variable kdf : bytes -> bytes -> N -> bytes.
Variable strip : string -> string.
Variables udigit uupper : N -> bool.

Lemma or_default_not_blank (s : string) :
  or_default s "General" <> EmptyString.
Proof. unfold or_default. destruct s; simpl; discriminate. Qed.

Lemma blank_false (s : string) : blank s = false -> s <> EmptyString.
Proof. destruct s; [discriminate | intros _; discriminate]. Qed.

Lemma sound_save_data (env : Env) (t c d : string) (self : app) :
  sound self -> sound (fst (save_data strip env t c d self)).
Proof.
  intros S. unfold save_data.
  destruct (current_user self) as [user|] eqn:U; [|exact S].
  destruct (blank (strip t) || blank (strip d)) eqn:B; [exact S|].
  apply orb_false_elim in B. destruct B as [Bt Bd].
  destruct (current_user_id user) as [id|]; [|exact S].
  pose proof (consistent_save_user_data env (db self) id (strip t) (strip d)
                (Some (or_default (strip c) "General")) (sound_db self S))
    as C.
  pose proof (save_user_data_cases env (db self) id (strip t) (strip d)
                (Some (or_default (strip c) "General"))) as E.
  unfold state_after in C.
  destruct (save_user_data env id (strip t) (strip d)
              (Some (or_default (strip c) "General")) (db self)) as [d' o].
  simpl in C.
  assert (D : d' = db self
              \/ d' = mkDB (users (db self))
                        (user_data (db self) ++
                           [saved_row env (db self) id (strip t) (strip d)
                              (or_default (strip c) "General")])
                        (login_attempts (db self))).
  { destruct (raises env 0); [left; congruence|].
    destruct (existsb _ (users (db self))); [|left; congruence].
    cbv zeta in E. destruct (raises env 1); right; congruence. }
  assert (S' : sound (mk d' (current_user self))).
  { destruct D as [->| ->].
    - destruct self. exact S.
    - constructor; simpl.
      + exact C.
      + apply (sound_current_user self S).
      + apply (sound_usernames self S).
      + intros r Hr. apply in_app_or in Hr. destruct Hr as [Hr|[<-|[]]].
        * now apply (sound_records self S).
        * simpl. split; [now apply blank_false|].
          split; [now apply blank_false | apply or_default_not_blank]. }
  rewrite U in S'. destruct o; exact S'.
Qed.

Lemma sound_logout (self : app) : sound self -> sound (fst (logout self)).
Proof.
  intros S. constructor; simpl.
  - apply (sound_db self S).
  - discriminate.
  - apply (sound_usernames self S).
  - apply (sound_records self S).
Qed.

Lemma sound_of_running (self : app) :
  running kdf strip udigit uupper self -> sound self.
Proof.
  induction 1 as [|self self' R IH P]; [apply sound_start|].
  destruct P.
  - now apply sound_login.
  - now apply sound_register.
  - now apply sound_save_data.
  - now apply sound_logout.
Qed.

(** While the application runs, whatever is typed and whatever SQLite
    does: the database satisfies the constraints of the schema, the user
    that the application holds is a user of the table, every username of
    the table is one that [validate_username] accepts, and no record has
    an empty title, text or category. *)
Theorem running_sound (self : app) :
  running kdf strip udigit uupper self -> sound self.
Proof. apply sound_of_running. Qed.

(** While the application runs, no handler raises: the exception that
    [login_user] lets through and the indexing of [current_user] cannot
    fail on the states that the handlers produce. *)
Theorem handlers_never_raise (self : app) (env : Env) (a b c d : string) :
  running kdf strip udigit uupper self ->
  (exists r, snd (login kdf strip env a b self) = Done r)
  /\ (exists r,
        snd (register kdf strip udigit uupper env a b c d self) = Done r)
  /\ (exists r, snd (save_data strip env a b c self) = Done r)
  /\ (exists r, snd (logout self) = Done r).
Proof.
  intros R. apply sound_of_running in R. split; [|split; [|split]].
  - unfold login. destruct (blank (strip a) || blank b); [simpl; eauto|].
    destruct (login_user_returns_when_consistent kdf env (db self)
                (strip a) b (sound_db self R)) as [[s v] E].
    unfold outcome in E.
    destruct (login_user kdf env (strip a) b (db self)) as [d' o].
    simpl in E. subst o. destruct s; simpl; eauto.
  - unfold register.
    destruct (Validator.validate_username (strip a)) as [v1 m1].
    destruct v1; [|simpl; eauto]. simpl.
    destruct (Validator.validate_password udigit uupper b) as [v2 m2].
    destruct v2; [|simpl; eauto]. simpl.
    destruct (String.eqb b c); [|simpl; eauto]. simpl.
    destruct (if blank (strip d) then (true, Validator.NoText)
              else Validator.validate_email (strip d)) as [v3 m3].
    destruct v3; [|simpl; eauto]. simpl.
    destruct (register_user_returns kdf env (db self)
                (strip a) b (strip d)) as [[s m] E].
    unfold outcome in E.
    destruct (register_user kdf env (strip a) b (strip d) (db self))
      as [d' o].
    simpl in E. subst o. simpl. eauto.
  - unfold save_data.
    destruct (current_user self) as [user|] eqn:U; [|simpl; eauto].
    destruct (blank (strip a) || blank (strip c)); [simpl; eauto|].
    destruct (sound_current_user self R user U) as [id [name [-> _]]].
    simpl.
    destruct (save_user_data_returns env (db self) id (strip a) (strip c)
                (Some (or_default (strip b) "General"))) as [s E].
    unfold outcome in E.
    destruct (save_user_data env id (strip a) (strip c)
                (Some (or_default (strip b) "General")) (db self))
      as [d' o].
    simpl in E. subst o. simpl. eauto.
  - simpl. eauto.
Qed.

(** While the application runs and a user is logged in, saving a record
    with a title and a text fails only if SQLite raises: with SQLite
    answering, the record is added for the logged-in user, with the fields
    stripped, and with the category General when the category field is
    blank. *)
Theorem save_data_saves (self : app) (env : Env) (t c d : string) :
  running kdf strip udigit uupper self ->
  raises env 0 = None -> raises env 1 = None ->
  current_user self <> None ->
  strip t <> EmptyString -> strip d <> EmptyString ->
  exists id name,
    current_user self = Some (LoginUser id name)
    /\ save_data strip env t c d self
       = (mk (mkDB (users (db self))
                (user_data (db self) ++
                   [saved_row env (db self) id (strip t) (strip d)
                      (if blank (strip c) then "General" else strip c)])
                (login_attempts (db self)))
             (current_user self),
          Done (ShowInfoThen DataSaved Dashboard)).
Proof.
  intros R H0 H1 Hu Ht Hd. apply sound_of_running in R.
  destruct (current_user self) as [user|] eqn:U; [|now destruct Hu].
  destruct (sound_current_user self R user U)
    as [id [name [-> [r [Hr [Ei _]]]]]].
  exists id, name. split; [reflexivity|].
  unfold save_data. rewrite U.
  replace (blank (strip t)) with false by (now destruct (strip t)).
  replace (blank (strip d)) with false by (now destruct (strip d)).
  cbn [orb current_user_id].
  rewrite save_user_data_cases, H0, H1.
  replace (existsb (fun r0 => Users.id r0 =? id) (users (db self)))
    with true.
  - reflexivity.
  - symmetry. apply existsb_exists. exists r. split; [exact Hr|].
    now apply Z.eqb_eq.
Qed.

(** The registration form reaches the database only with data that passed
    the validators: if pressing the button changes the table of users,
    then the stripped username and the password were accepted by their
    validators, the two passwords were equal, and the stripped email was
    empty or accepted by its validator; the row added carries the stripped
    username and email. *)
Theorem register_writes_only_validated (self : app) (env : Env)
    (u p c e : string) :
  users (db (fst (register kdf strip udigit uupper env u p c e self)))
  <> users (db self) ->
  Validator.validate_username (strip u) = (true, Validator.NoText)
  /\ Validator.validate_password udigit uupper p = (true, Validator.NoText)
  /\ p = c
  /\ (strip e = EmptyString
      \/ Validator.validate_email (strip e) = (true, Validator.NoText))
  /\ users (db (fst (register kdf strip udigit uupper env u p c e self)))
     = (users (db self)
        ++ [registered_row kdf env (db self) (strip u) p (strip e)])%list.
Proof.
  unfold register.
  assert (V1 : forall s, fst (Validator.validate_username s) = true ->
                         Validator.validate_username s
                         = (true, Validator.NoText)).
  { intros s. unfold Validator.validate_username.
    destruct (len s <? 3)%nat; [discriminate|].
    now destruct (negb _). }
  assert (V2 : forall s,
            fst (Validator.validate_password udigit uupper s) = true ->
            Validator.validate_password udigit uupper s
            = (true, Validator.NoText)).
  { intros s. unfold Validator.validate_password.
    destruct (len s <? 6)%nat; [discriminate|].
    destruct (negb _); [discriminate|]. now destruct (negb _). }
  assert (V3 : forall s, fst (Validator.validate_email s) = true ->
                         Validator.validate_email s
                         = (true, Validator.NoText)).
  { intros s. unfold Validator.validate_email. now destruct (negb _). }
  specialize (V1 (strip u)). specialize (V2 p). specialize (V3 (strip e)).
  destruct (Validator.validate_username (strip u)) as [v1 m1].
  destruct v1; [|intros H; now destruct H]. cbn [negb].
  destruct (Validator.validate_password udigit uupper p) as [v2 m2].
  destruct v2; [|intros H; now destruct H]. cbn [negb].
  destruct (String.eqb_spec p c) as [Epc|_]; [|intros H; now destruct H].
  cbn [negb].
  assert (E3 : forall v3 m3,
            (if blank (strip e) then (true, Validator.NoText)
             else Validator.validate_email (strip e)) = (v3, m3) ->
            v3 = true ->
            strip e = EmptyString
            \/ Validator.validate_email (strip e)
               = (true, Validator.NoText)).
  { intros v3 m3 E Hv. destruct (strip e) as [|x s] eqn:Es; [now left|].
    right. simpl in E. apply V3. rewrite E. exact Hv. }
  destruct (if blank (strip e) then (true, Validator.NoText)
            else Validator.validate_email (strip e)) as [v3 m3] eqn:Q.
  specialize (E3 v3 m3 eq_refl).
  destruct v3; [|intros H; now destruct H]. cbn [negb].
  pose proof (register_user_cases kdf env (db self) (strip u) p (strip e))
    as E.
  destruct (register_user kdf env (strip u) p (strip e) (db self))
    as [d' o].
  assert (D : users d' = users (db self)
              \/ users d' = (users (db self)
                   ++ [registered_row kdf env (db self) (strip u) p
                         (strip e)])%list).
  { destruct (raises env 0); [left; congruence|].
    destruct (find _ (users (db self))); [left; congruence|].
    destruct (raises env 1); [left; congruence|].
    cbv zeta in E. destruct (raises env 2); right;
      injection E as -> _; reflexivity. }
  assert (F : users (db (fst (match o with
                               | Ok (success, message) =>
                                   (mk d' (current_user self),
                                    Done (if success
                                          then ShowInfoThen
                                                 (FromRegisterUser message)
                                                 LoginFrame
                                          else ShowError
                                                 (FromRegisterUser message)))
                               | Raise e0 =>
                                   (mk d' (current_user self),
                                    Uncaught (FromDatabase e0))
                               end))) = users d').
  { destruct o as [[s m]|x]; reflexivity. }
  rewrite F. intros Hne. destruct D as [D|D]; [now destruct Hne|].
  repeat split; auto.
Qed.

End HandlerTheorems.

(** * The further properties at concrete values *)

Lemma reachable_db_bob : reachable example_kdf db_bob.
Proof.
  apply (reachable_call example_kdf empty_db); [apply reachable_new|].
  unfold db_bob. apply call_register_user.
Qed.

Lemma running_app_bob :
  ModernApp.running example_kdf example_strip example_isdigit
    example_isupper app_bob.
Proof.
  apply (ModernApp.running_press example_kdf example_strip
           example_isdigit example_isupper
           (ModernApp.mk db_bob None)).
  - apply (ModernApp.running_press example_kdf example_strip
           example_isdigit example_isupper
             (ModernApp.mk empty_db None)); [apply ModernApp.running_start|].
    exact (ModernApp.press_register example_kdf example_strip
             example_isdigit example_isupper
             (store_up 100 ["001"%char; "002"%char])
             "bob" "Passw0rd" "Passw0rd" "bob@x.com"
             (ModernApp.mk empty_db None)).
  - unfold app_bob. apply ModernApp.press_login.
Qed.

Lemma username_unique_db_bob : username_unique db_bob.
Proof. repeat constructor. intros []. Qed.

Lemma register_user_adds_one_row_witness :
  register_user example_kdf (store_up 100 ["001"%char; "002"%char])
    "bob" "Passw0rd" "bob@x.com" empty_db
  = (db_bob, Ok (true, MsgRegistered)).
Proof.
  refine (proj1 (register_user_adds_one_row example_kdf
                   (store_up 100 ["001"%char; "002"%char]) empty_db
                   "bob" "Passw0rd" "bob@x.com" eq_refl eq_refl eq_refl _)).
  intros r [].
Defined.

Lemma register_user_then_login_user_witness :
  outcome (login_user example_kdf (store_up 150 []) "bob" "Passw0rd") db_bob
  = Ok (true, LoginUser 1 "bob").
Proof.
  exact (proj1 (register_user_then_login_user example_kdf
                  (store_up 100 ["001"%char; "002"%char]) (store_up 150 [])
                  empty_db "bob" "Passw0rd" "bob@x.com"
                  eq_refl eq_refl eq_refl eq_refl)).
Defined.

Lemma login_user_unknown_or_inactive_witness :
  login_user example_kdf (store_up 150 []) "nouser" "anything" db_bob
  = (db_bob, Ok (false, LoginMessage MsgNotFoundOrInactive)).
Proof.
  apply (login_user_unknown_or_inactive example_kdf (store_up 150 []) db_bob
           "nouser" "anything" eq_refl).
  intros r [<-|[]] E. discriminate E.
Defined.

Lemma login_user_success_witness :
  outcome (login_user example_kdf (store_up 150 []) "bob" "Passw0rd") db_bob
  = Ok (true, LoginUser 1 "bob")
  /\ user_data
       (state_after
          (login_user example_kdf (store_up 150 []) "bob" "Passw0rd") db_bob)
     = [].
Proof.
  destruct (login_user_success example_kdf (store_up 150 []) db_bob
              "bob" "Passw0rd"
              (registered_row example_kdf
                 (store_up 100 ["001"%char; "002"%char]) empty_db
                 "bob" "Passw0rd" "bob@x.com")
              eq_refl eq_refl eq_refl username_unique_db_bob
              (or_introl eq_refl) eq_refl eq_refl eq_refl)
    as [E [_ [_ [_ [_ [D _]]]]]].
  split; [exact E | exact D].
Defined.

Lemma login_user_malformed_hash_raises_witness :
  login_user example_kdf (store_up 150 []) "carol" "plaintext" db_carol_plain
  = (db_carol_plain, Raise ValueError).
Proof.
  apply (login_user_malformed_hash_raises example_kdf (store_up 150 [])
           db_carol_plain "carol" "plaintext"
           (Users.mk 1 "carol" "plaintext" "c@x.org" 100 None 1)).
  - reflexivity.
  - repeat constructor. intros [].
  - left. reflexivity.
  - reflexivity.
  - reflexivity.
  - vm_compute. discriminate.
Defined.

Lemma register_user_existing_email_rejected_witness :
  register_user example_kdf (store_up 200 []) "robert" "Passw0rd"
    "bob@x.com" db_bob
  = (db_bob, Ok (false, MsgDuplicateUser)).
Proof.
  apply (register_user_existing_email_rejected example_kdf (store_up 200 [])
           db_bob "robert" "Passw0rd" "bob@x.com"
           (registered_row example_kdf
              (store_up 100 ["001"%char; "002"%char]) empty_db
              "bob" "Passw0rd" "bob@x.com")).
  - reflexivity.
  - left. reflexivity.
  - reflexivity.
Defined.


Lemma reachable_consistent_witness : consistent db_bob.
Proof.
  exact (reachable_consistent example_kdf db_bob reachable_db_bob).
Defined.

Lemma stored_passwords_unpack_when_reachable_witness :
  exists b : bool,
    verify_password example_kdf []
      (Users.password
         (registered_row example_kdf
            (store_up 100 ["001"%char; "002"%char]) empty_db
            "bob" "Passw0rd" "bob@x.com"))
      "wrong"
    = Ok b.
Proof.
  exact (proj2 (stored_passwords_unpack_when_reachable example_kdf db_bob
                  (registered_row example_kdf
                     (store_up 100 ["001"%char; "002"%char]) empty_db
                     "bob" "Passw0rd" "bob@x.com")
                  [] "wrong" reachable_db_bob (or_introl eq_refl))).
Defined.

Lemma login_user_finds_registered_when_reachable_witness :
  outcome (login_user example_kdf (store_up 300 []) "bob" "wrong") db_bob
  <> Ok (false, LoginMessage MsgNotFoundOrInactive).
Proof.
  apply (login_user_finds_registered_when_reachable example_kdf
           (store_up 300 []) db_bob "bob" "wrong"
           (registered_row example_kdf
              (store_up 100 ["001"%char; "002"%char]) empty_db
              "bob" "Passw0rd" "bob@x.com") reachable_db_bob).
  - reflexivity.
  - left. reflexivity.
  - reflexivity.
Defined.

Lemma save_user_data_refused_witness :
  save_user_data (store_up 200 []) 7 "T" "B" None db_bob
  = (db_bob, Ok false).
Proof.
  apply (proj1 (save_user_data_refused (store_up 200 []) db_bob 7
                  "T" "B" None eq_refl)).
  intros u [<-|[]]. discriminate.
Defined.

Lemma save_user_data_then_listed_witness :
  exists rows,
    outcome (get_user_data (store_up 300 []) 1 (Some "Work"))
      (state_after (save_user_data (store_up 200 []) 1 "T" "B" (Some "Work"))
         db_bob)
    = Ok rows
    /\ In (1, "T", "B", "Work", 200) rows.
Proof.
  apply (proj1 (proj2 (save_user_data_then_listed (store_up 200 [])
                         (store_up 300 []) db_bob 1 "T" "B" "Work"
                         eq_refl eq_refl))).
  discriminate.
Defined.

Lemma save_user_data_other_users_unchanged_witness :
  outcome (get_user_data (store_up 300 []) 2 None)
    (state_after (save_user_data (store_up 200 []) 1 "T" "B" None) db_bob)
  = outcome (get_user_data (store_up 300 []) 2 None) db_bob.
Proof.
  apply (save_user_data_other_users_unchanged (store_up 200 [])
           (store_up 300 []) db_bob 1 2 "T" "B" None None).
  discriminate.
Defined.

Lemma get_categories_sorted_distinct_witness :
  exists cats,
    get_categories (store_up 300 []) 1 db_alice_work
    = (db_alice_work, Ok cats)
    /\ NoDup cats.
Proof.
  destruct (get_categories_sorted_distinct (store_up 300 []) db_alice_work 1
              eq_refl eq_refl) as [cats [E [N _]]].
  exists cats. split; [exact E | exact N].
Defined.

Lemma get_categories_select_records_witness :
  exists rows,
    outcome (get_user_data (store_up 300 []) 1 (Some "Work")) db_alice_work
    = Ok rows
    /\ rows <> [].
Proof.
  destruct (get_categories_select_records (store_up 300 []) db_alice_work 1
              ["Work"] "Work" eq_refl eq_refl (or_introl eq_refl))
    as [rows [E [N _]]].
  - discriminate.
  - exists rows. split; [exact E | exact N].
Defined.

Lemma validate_username_accepts_witness :
  (3 <= String.length "ab_1")%nat
  /\ exists w,
       ("ab_1" = w \/ "ab_1" = w ++ String "010" EmptyString)
       /\ w <> EmptyString
       /\ all_chars Validator.word_char w = true.
Proof.
  exact (proj1 (validate_username_accepts "ab_1") eq_refl).
Defined.

Lemma validate_username_accepts_final_newline_witness :
  Validator.validate_username ("ab" ++ String "010" EmptyString)
  = (true, Validator.NoText).
Proof.
  apply (validate_username_accepts_final_newline "ab"); [reflexivity|].
  simpl. lia.
Defined.

Lemma validate_password_ascii_witness :
  Validator.validate_password example_isdigit example_isupper "abcdef"
  = (false, Validator.PasswordWithoutDigit).
Proof.
  apply (proj2 (proj1 (proj2 (proj2
           (validate_password_ascii example_isdigit example_isupper
              "abcdef" eq_refl))))).
  split; [simpl; lia | reflexivity].
Defined.

Lemma validate_email_accepts_witness :
  Validator.well_formed_address "a@b.com"
  \/ exists w, "a@b.com" = w ++ String "010" EmptyString
               /\ Validator.well_formed_address w.
Proof.
  exact (proj1 (validate_email_accepts "a@b.com") eq_refl).
Defined.

Lemma validate_email_one_at_sign_witness : count "@" "bob@x.com" = 1%nat.
Proof.
  exact (validate_email_one_at_sign "bob@x.com" eq_refl).
Defined.

Lemma generate_strong_password_shape_witness :
  String.length (Validator.generate_strong_password (fun _ => 60%nat) None)
  = 12%nat.
Proof.
  apply (generate_strong_password_shape example_isdigit example_isupper
           (fun _ => 60%nat) None).
  intros i. lia.
Defined.

Lemma generate_strong_password_may_be_refused_witness :
  fst (Validator.validate_password example_isdigit example_isupper
         (Validator.generate_strong_password (fun _ => 30%nat) None))
  = false.
Proof.
  apply (generate_strong_password_may_be_refused example_isdigit
           example_isupper 30 None). lia.
Defined.

Lemma running_sound_witness : ModernApp.sound app_bob.
Proof.
  exact (running_sound example_kdf example_strip example_isdigit
           example_isupper app_bob running_app_bob).
Defined.

Lemma handlers_never_raise_witness :
  exists r,
    snd (ModernApp.login example_kdf example_strip (store_down 300)
           "bob" "x" app_bob)
    = ModernApp.Done r.
Proof.
  exact (proj1 (handlers_never_raise example_kdf example_strip
                  example_isdigit example_isupper app_bob
                  (store_down 300) "bob" "x" "" "" running_app_bob)).
Defined.

Lemma save_data_saves_witness :
  exists id name,
    ModernApp.current_user app_bob = Some (LoginUser id name)
    /\ snd (ModernApp.save_data example_strip (store_up 200 [])
              " T " "  " "body" app_bob)
       = ModernApp.Done
           (ModernApp.ShowInfoThen ModernApp.DataSaved ModernApp.Dashboard).
Proof.
  destruct (save_data_saves example_kdf example_strip example_isdigit
              example_isupper app_bob
              (store_up 200 []) " T " "  " "body" running_app_bob
              eq_refl eq_refl) as [id [name [U E]]].
  - discriminate.
  - discriminate.
  - discriminate.
  - exists id, name. split; [exact U|]. now rewrite E.
Defined.

Lemma register_writes_only_validated_witness :
  Validator.validate_username (example_strip " alice ")
  = (true, Validator.NoText).
Proof.
  apply (register_writes_only_validated example_kdf example_strip
           example_isdigit example_isupper app_bob
           (store_up 200 []) " alice " "Passw0rd" "Passw0rd" "").
  vm_compute. discriminate.
Defined.
